(** * TransFlix: the transcription / subtitle pipeline of [main.py]

    A shallow embedding of [ProcessVideo] (timestamp formatting, working-file
    paths, SRT serialisation, transcription loop, burning, cleanup) and of the
    part of [MainWindow] / [PreviewWindow] that sequences it, together with
    the properties of the pipeline that are checked against it. *)

From Stdlib Require Import ZArith QArith Qround Lqa Lia List Ascii String Bool.
From Stdlib Require Import Floats.PrimFloat Floats.FloatOps Floats.SpecFloat
  Floats.FloatAxioms.
From stdpp Require Import gmap strings.
From Equations Require Import Equations.

Set Warnings "-inexact-float".
Local Open Scope Z_scope.

(** ** Python strings

    A Python [str] is a Rocq [string]; the characters of every string the
    pipeline builds itself are ASCII, and a recognised word is carried as the
    byte sequence of its UTF-8 encoding. *)

Module PyStr.

(** [zero_pad w s]: the zero fill of the format specifications [02d] and
    [06.3f] for a value without sign. *)
Fixpoint zeros (n : nat) : string :=
  match n with
  | O => ""
  | S k => String "0" (zeros k)
  end.

Definition zero_pad (width : nat) (s : string) : string :=
  zeros (width - String.length s) +:+ s.

Definition digit_char (d : Z) : ascii :=
  ascii_of_nat (48 + Z.to_nat d).

(** Decimal digits of a non-negative integer, most significant first.  The
    fuel is the number of binary digits, which bounds the decimal ones. *)
Fixpoint dec_digits (fuel : nat) (n : Z) (acc : string) : string :=
  match fuel with
  | O => acc
  | S k =>
      let acc' := String (digit_char (n mod 10)) acc in
      if Z.eqb (n / 10) 0 then acc' else dec_digits k (n / 10) acc'
  end.

(** [str(n)] and [f"{n}"] for an [int] [n >= 0]. *)
Definition str_int (n : Z) : string :=
  dec_digits (S (Z.to_nat (Z.log2 n))) n "".

(** [f"{n:02d}"] for [n >= 0]. *)
Definition format_02d (n : Z) : string := zero_pad 2 (str_int n).

(** [s.replace(a, b)] for one-character [a] and [b]. *)
Fixpoint replace (a b : ascii) (s : string) : string :=
  match s with
  | EmptyString => EmptyString
  | String c s' => String (if Ascii.eqb c a then b else c) (replace a b s')
  end.

(** [sep.join(l)]. *)
Fixpoint join (sep : string) (l : list string) : string :=
  match l with
  | [] => ""
  | [x] => x
  | x :: l' => x +:+ sep +:+ join sep l'
  end.

(** [s[:-4]]: everything but the last four characters, and the empty
    string when there are at most four. *)
Fixpoint take (n : nat) (s : string) : string :=
  match n, s with
  | S k, String c s' => String c (take k s')
  | _, _ => EmptyString
  end.

Definition drop_last4 (s : string) : string :=
  take (String.length s - 4) s.

Definition newline : ascii := "010"%char.

(** [s.split(sep)] for a one-character [sep]. *)
Fixpoint split (sep : ascii) (s : string) : list string :=
  match s with
  | EmptyString => [EmptyString]
  | String c s' =>
      if Ascii.eqb c sep then EmptyString :: split sep s'
      else match split sep s' with
           | [] => [String c EmptyString]
           | l :: ls => String c l :: ls
           end
  end.

(** The two and the three decimal digits of a number below 100 and below
    1000, leading zeros included. *)
Definition two_digits (m : Z) : string :=
  String (digit_char (m / 10)) (String (digit_char (m mod 10)) "").

Definition three_digits (m : Z) : string :=
  String (digit_char (m / 100)) (two_digits (m mod 100)).

Fixpoint all_chars (p : ascii -> bool) (s : string) : bool :=
  match s with
  | EmptyString => true
  | String c s' => p c && all_chars p s'
  end.

Definition is_digit (c : ascii) : bool :=
  let n := nat_of_ascii c in (48 <=? n)%nat && (n <=? 57)%nat.

(** The character [c] does not occur in [s]. *)
Definition lacks (c : ascii) (s : string) : bool :=
  all_chars (fun x => negb (Ascii.eqb x c)) s.

(** [repr(s)], the form in which [str] of an [OSError] shows the file
    name.  The quote is the apostrophe, or the double quote when the text
    holds an apostrophe and no double quote; the quote and the backslash
    are escaped with a backslash, tab, line feed and carriage return are
    written [\t], [\n], [\r], the other control characters and DEL as
    [\x] and two hexadecimal digits, and the rest is copied.  The bytes
    from 128 on are copied too: they are taken to belong to printable
    characters. *)
Definition apostrophe : ascii := "039"%char.
Definition double_quote : ascii := "034"%char.
Definition backslash : ascii := "092"%char.

Definition hex_digit (n : nat) : ascii :=
  if (n <? 10)%nat then ascii_of_nat (48 + n) else ascii_of_nat (87 + n).

Definition repr_char (quote c : ascii) : string :=
  let n := nat_of_ascii c in
  if Ascii.eqb c quote || Ascii.eqb c backslash then
    String backslash (String c "")
  else if (n =? 9)%nat then String backslash "t"
  else if (n =? 10)%nat then String backslash "n"
  else if (n =? 13)%nat then String backslash "r"
  else if (n <? 32)%nat || (n =? 127)%nat then
    String backslash
      (String "x" (String (hex_digit (n / 16)) (String (hex_digit (n mod 16)) "")))
  else String c "".

Fixpoint repr_body (quote : ascii) (s : string) : string :=
  match s with
  | EmptyString => EmptyString
  | String c s' => repr_char quote c +:+ repr_body quote s'
  end.

Definition repr (s : string) : string :=
  let quote :=
    if negb (lacks apostrophe s) && lacks double_quote s then double_quote
    else apostrophe in
  String quote (repr_body quote s +:+ String quote "").

(** A character that [repr] copies whatever the quote: printable ASCII
    other than the apostrophe and the backslash. *)
Definition plain (c : ascii) : bool :=
  let n := nat_of_ascii c in
  (32 <=? n)%nat && (n <=? 126)%nat
  && negb (Ascii.eqb c apostrophe) && negb (Ascii.eqb c backslash).

End PyStr.

(** ** Python floats

    A Python [float] is a binary64 value, here a primitive float.  Its exact
    value is read off the sign, mantissa and exponent. *)

Module PyFloat.

Definition exact_value (x : float) : option Q :=
  match Prim2SF x with
  | S754_zero _ => Some 0%Q
  | S754_finite s m e =>
      let mag :=
        match e with
        | Zneg p => Qmake (Zpos m) (2 ^ p)%positive
        | _ => inject_Z (Zpos m * 2 ^ e)
        end in
      Some (if s then Qopp mag else mag)
  | S754_infinity _ | S754_nan => None
  end.

(** [x > y] on floats. *)
Definition gt (x y : float) : bool := PrimFloat.ltb y x.

(** [q % m] for [m > 0]: the result has the sign of [m]. *)
Definition qmod (q m : Q) : Q := (q - inject_Z (Qfloor (q / m)) * m)%Q.

(** Round to the nearest integer, a tie going to the even one: the
    rounding of [format] and of the [f] presentation type, which convert
    the exact binary value. *)
Definition round_half_even (x : Q) : Z :=
  let f := Qfloor x in
  match Qcompare (x - inject_Z f) (1 # 2) with
  | Lt => f
  | Gt => f + 1
  | Eq => if Z.even f then f else f + 1
  end.

(** [f"{x:06.3f}"] for [x >= 0]: three digits after the point, the whole
    zero-filled to six characters. *)
Definition format_06_3f (x : Q) : string :=
  let n := round_half_even (x * 1000) in
  PyStr.zero_pad 6
    (PyStr.str_int (n / 1000) +:+ "." +:+ PyStr.zero_pad 3 (PyStr.str_int (n mod 1000))).

(** The largest magnitude handled: below [2^53] the float operations [//]
    and [%] by 3600 and by 60 are exact, the differences and quotients
    they form being integers below [2^53]. *)
Definition in_exact_range (q : Q) : bool :=
  Qle_bool 0 q && negb (Qle_bool (inject_Z (2 ^ 53)) q).

End PyFloat.

(** ** [ProcessVideo._format_timestamp] *)

(** On a rational [q], the exact value of [seconds]: [hours] is
    [int(seconds // 3600)], [minutes] is [int((seconds % 3600) // 60)],
    [secs] is [seconds % 60], and the text is the f-string with its point
    replaced by a comma. *)
Definition format_timestamp_exact (q : Q) : string :=
  let hours := Qfloor (q / 3600) in
  let minutes := Qfloor (PyFloat.qmod q 3600 / 60) in
  let secs := PyFloat.qmod q 60 in
  PyStr.replace "." ","
    (PyStr.format_02d hours +:+ ":" +:+ PyStr.format_02d minutes +:+ ":" +:+
     PyFloat.format_06_3f secs).

(** [None] stands for an input outside the modelled range: NaN and the
    infinities (on which [int] raises), negative values, and magnitudes from
    [2^53] on. *)
Definition _format_timestamp (seconds : float) : option string :=
  match PyFloat.exact_value seconds with
  | Some q =>
      if PyFloat.in_exact_range q then Some (format_timestamp_exact q) else None
  | None => None
  end.

(** ** Paths: [os.path] and [pathlib] *)

Module PosixPath.

Definition is_slash (c : ascii) : bool := Ascii.eqb c "/".

Fixpoint basename_from (p acc : string) : string :=
  match p with
  | EmptyString => acc
  | String c p' =>
      if is_slash c then basename_from p' ""
      else basename_from p' (acc +:+ String c "")
  end.

(** [os.path.basename(p)]: what follows the last slash. *)
Definition basename (p : string) : string := basename_from p "".

Fixpoint ends_with_slash (a : string) : bool :=
  match a with
  | EmptyString => false
  | String c EmptyString => is_slash c
  | String _ a' => ends_with_slash a'
  end.

(** [os.path.join(a, b)]. *)
Definition join (a b : string) : string :=
  match b with
  | String c _ =>
      if is_slash c then b
      else if (String.length a =? 0)%nat || ends_with_slash a then a +:+ b
      else a +:+ "/" +:+ b
  | EmptyString =>
      if (String.length a =? 0)%nat || ends_with_slash a then a else a +:+ "/"
  end.

Fixpoint drop (n : nat) (s : string) : string :=
  match n, s with
  | S k, String _ s' => drop k s'
  | _, _ => s
  end.

(** [name.rfind(".")], the head of [s] being at index [i]. *)
Fixpoint rfind_dot (s : string) (i : nat) : option nat :=
  match s with
  | EmptyString => None
  | String c s' =>
      match rfind_dot s' (S i) with
      | Some j => Some j
      | None => if Ascii.eqb c "." then Some i else None
      end
  end.

(** [Path(p).name] for a path [p] in normal form (no trailing slash). *)
Definition name (p : string) : string := basename p.

(** [Path(p).suffix] and [Path(p).stem]. *)
Definition suffix (p : string) : string :=
  let n := name p in
  match rfind_dot n 0 with
  | Some i =>
      if (0 <? i)%nat && (i <? String.length n - 1)%nat then drop i n else ""
  | None => ""
  end.

Definition stem (p : string) : string :=
  let n := name p in
  match rfind_dot n 0 with
  | Some i =>
      if (0 <? i)%nat && (i <? String.length n - 1)%nat then PyStr.take i n else n
  | None => n
  end.

(** [str(Path(d) / f)] for a directory [d] in normal form. *)
Definition div (d f : string) : string := join d f.

End PosixPath.

(** ** The world outside the program *)

(** One audio frame, as its bytes. *)
Definition frame : Type := string.

(** An entry of the ["result"] list of [recognizer.Result()], once parsed by
    [json.loads]. *)
Record Word : Type := {
  word : string;
  start : float;
  end_ : float;
  conf : float
}.

(** [ffmpeg.input(i).output(o, **kwargs).overwrite_output().run()]. *)
Record ffmpeg_cmd : Type := {
  ff_input : string;
  ff_output : string;
  ff_kwargs : list (string * string);
  ff_overwrite : bool
}.

Inductive invocation : Type :=
| Ffmpeg (cmd : ffmpeg_cmd)
| VoskModel (path : string)
| ArgosTranslate (text : string).

(** Regular files by path, and the external tools run so far.  Directories
    are not modelled: a write succeeds at every path, and a path below a
    regular file does not exist. *)
Record World : Type := {
  files : gmap string string;
  invoked : list invocation
}.

(** The exceptions that reach the callers.  [OutOfModel] is no exception of
    Python: it marks a run that formats a timestamp which
    [_format_timestamp] does not cover. *)
Inductive exn : Type :=
| FileNotFoundError (errno : Z) (strerror : string) (filename : string)
| FfmpegError
| VoskError
| WaveError
| OutOfModel.

(** [str(e)]; for an [OSError] with a file name it is the format
    [[Errno n] strerror: repr(filename)]. *)
Definition str_exn (e : exn) : string :=
  match e with
  | FileNotFoundError n msg f =>
      "[Errno " +:+ PyStr.str_int n +:+ "] " +:+ msg +:+ ": " +:+ PyStr.repr f
  | FfmpegError => "ffmpeg error (see stderr output for detail)"
  | VoskError => "Failed to create a model"
  | WaveError => "file does not start with RIFF id"
  | OutOfModel => "timestamp outside the modelled range"
  end.

(** The behaviour of the external collaborators: the transcoder, the
    recognizer, the WAV reader and the translation engine. *)
Record Env : Type := {
  (** [run()]: the files it leaves, and whether it raised [ffmpeg.Error]. *)
  ffmpeg_run : ffmpeg_cmd -> gmap string string -> bool * gmap string string;
  rec_state : Type;
  (** [Model(path)], [KaldiRecognizer(model, 16000)], [SetWords(True)];
      [None] when the model cannot be created. *)
  vosk_open : string -> option rec_state;
  AcceptWaveform : rec_state -> list frame -> rec_state * bool;
  (** [json.loads(recognizer.Result())]: the value at key ["result"], if
      the key is there. *)
  Result : rec_state -> rec_state * option (list Word);
  (** The frames of a WAV file, [None] when [wave.open] rejects it. *)
  wave_frames : string -> option (list frame);
  argos_translate : string -> string;
  (** The bytes of a text in the platform's preferred encoding, the one
      [open] takes when it is given none. *)
  locale_encode : string -> string
}.

(** The [encoding] argument of [open].  A text is carried as the bytes of
    its UTF-8 encoding, so that writing it as UTF-8 stores it as it is. *)
Inductive encoding : Type :=
| utf_8
| locale_default.

Definition encode (env : Env) (enc : encoding) (text : string) : string :=
  match enc with
  | utf_8 => text
  | locale_default => locale_encode env text
  end.

(** ** Computations: a state over [World] with exceptions *)

Inductive outcome (A : Type) : Type :=
| Returns (a : A)
| Raises (e : exn).
Arguments Returns {A} a.
Arguments Raises {A} e.

Definition M (A : Type) : Type := World -> outcome A * World.

Definition ret {A} (a : A) : M A := fun w => (Returns a, w).
Definition raise {A} (e : exn) : M A := fun w => (Raises e, w).
Definition bind {A B} (m : M A) (k : A -> M B) : M B :=
  fun w =>
    match m w with
    | (Returns a, w') => k a w'
    | (Raises e, w') => (Raises e, w')
    end.

Declare Scope py_scope.
Delimit Scope py_scope with py.
Notation "x <- m ;; k" := (bind m (fun x => k))
  (at level 100, m at next level, right associativity) : py_scope.
Notation "m ;;; k" := (bind m (fun _ => k))
  (at level 100, right associativity) : py_scope.

Definition ENOENT : Z := 2.
Definition strerror_ENOENT : string := "No such file or directory".

(** [os.path.exists(p)]. *)
Definition os_path_exists (p : string) : M bool :=
  fun w => (Returns (bool_decide (is_Some (files w !! p))), w).

(** [os.remove(p)]. *)
Definition os_remove (p : string) : M unit :=
  fun w =>
    match files w !! p with
    | Some _ => (Returns tt, {| files := delete p (files w); invoked := invoked w |})
    | None => (Raises (FileNotFoundError ENOENT strerror_ENOENT p), w)
    end.

(** [with open(p, "w", encoding = enc) as f: f.write(text)].  The write is
    taken to succeed: a directory that is missing or closed to writing, a
    full disk, and a text that the encoding cannot express are not
    modelled, so that what is proved of a run is proved of the runs whose
    writes succeed. *)
Definition write_text (env : Env) (enc : encoding) (p text : string) : M unit :=
  fun w =>
    (Returns tt,
     {| files := <[p := encode env enc text]> (files w); invoked := invoked w |}).

Definition read_text (p : string) : M string :=
  fun w =>
    match files w !! p with
    | Some c => (Returns c, w)
    | None => (Raises (FileNotFoundError ENOENT strerror_ENOENT p), w)
    end.

Definition log (i : invocation) : M unit :=
  fun w => (Returns tt, {| files := files w; invoked := invoked w ++ [i] |}).

Definition run_ffmpeg (env : Env) (cmd : ffmpeg_cmd) : M unit :=
  (log (Ffmpeg cmd) ;;;
   fun w =>
     let '(failed, fs) := ffmpeg_run env cmd (files w) in
     (if failed then Raises FfmpegError else Returns tt,
      {| files := fs; invoked := invoked w |}))%py.

Definition try_except {A} (m : M A) (handler : exn -> M A) : M A :=
  fun w =>
    match m w with
    | (Returns a, w') => (Returns a, w')
    | (Raises e, w') => handler e w'
    end.

(** ** [class ProcessVideo] *)

Record ProcessVideo : Type := {
  video : string;
  model : string;
  confidence : float;
  video_dir : string;
  srt_path : option string
}.

Definition nl : string := String PyStr.newline "".

Local Open Scope py_scope.

Definition _video_exits (video : string) : M unit :=
  found <- os_path_exists video ;;
  if negb found
  then raise (FileNotFoundError ENOENT strerror_ENOENT video)
  else ret tt.

Definition default_model : string := "vosk-model-fr-0.22".

Definition __init__ (video : string) (srt_path : option string)
    (save_dir : string) (model : string) : M ProcessVideo :=
  _video_exits video ;;;
  ret {| video := video; model := model; confidence := 0.6%float;
         video_dir := save_dir; srt_path := srt_path |}.

(** [os.path.basename(self.video)[:-4]]. *)
Definition base_name (self : ProcessVideo) : string :=
  PyStr.drop_last4 (PosixPath.basename (video self)).

(** The [for] loop of [_save_srt]: what the successive [f.write] calls
    leave in the file. *)
Definition written (subtitles : list string) : string :=
  fold_left (fun buf subtitle => buf +:+ (subtitle +:+ nl)) subtitles "".

Definition _save_srt (env : Env) (self : ProcessVideo) (subtitles : list string)
  : M string :=
  let srt_file := PosixPath.join (video_dir self) (base_name self +:+ ".srt") in
  write_text env utf_8 srt_file (written subtitles) ;;;
  ret srt_file.

Definition _cleanup (self : ProcessVideo) : M unit :=
  let base_name := base_name self in
  let srt_file := PosixPath.join (video_dir self) (base_name +:+ ".srt") in
  let wav_file := PosixPath.join (video_dir self) (base_name +:+ ".wav") in
  srt_there <- os_path_exists srt_file ;;
  (if srt_there then os_remove srt_file else ret tt) ;;;
  wav_there <- os_path_exists wav_file ;;
  (if wav_there then os_remove wav_file else ret tt).

Definition audio_filter : string :=
"
                        highpass=f=200,
                        lowpass=f=3500,
                        afftdn=nf=-20,
                    ".

(** The stream that [extract_audio] builds before it runs it. *)
Definition extract_command (self : ProcessVideo) : ffmpeg_cmd :=
  let output_file := PosixPath.join (video_dir self) (base_name self +:+ ".wav") in
  {| ff_input := video self;
     ff_output := output_file;
     ff_kwargs := [("format", "wav"); ("acodec", "pcm_s16le"); ("ac", "1");
                   ("ar", "16000"); ("af", audio_filter)];
     ff_overwrite := true |}.

Definition extract_audio (env : Env) (self : ProcessVideo) : M unit :=
  run_ffmpeg env (extract_command self).

(** The words of a group that go into the cue text. *)
Definition kept (confidence : float) (words : list Word) : list Word :=
  List.filter (fun w => PyFloat.gt (conf w) confidence) words.

Definition cue_text (confidence : float) (words : list Word) : string :=
  PyStr.join " " (map word (kept confidence words)).

(** [f"{subtitles_index}\n{start} --> {end}\n{text}\n"]. *)
Definition cue (subtitles_index : Z) (start end_ text : string) : string :=
  PyStr.str_int subtitles_index +:+ nl +:+ start +:+ " --> " +:+ end_ +:+ nl
  +:+ text +:+ nl.

(** What the loop of [retrieve_text] carries from one chunk to the next. *)
Record loop_state (env : Env) : Type := {
  recognizer : rec_state env;
  subtitles : list string;
  subtitles_index : Z
}.
Arguments recognizer {env} _.
Arguments subtitles {env} _.
Arguments subtitles_index {env} _.

(** The group finalized on a chunk: appended as a cue when it has a word. *)
Definition on_result {env : Env} (confidence : float)
    (rec : rec_state env) (subs : list string) (idx : Z)
    (result : option (list Word)) : outcome (loop_state env) :=
  match result with
  | Some (w0 :: ws) =>
      match _format_timestamp (start w0), _format_timestamp (end_ (List.last ws w0)) with
      | Some start, Some end_ =>
          let text := cue_text confidence (w0 :: ws) in
          Returns {| recognizer := rec;
                     subtitles := subs ++ [cue idx start end_ text];
                     subtitles_index := idx + 1 |}
      | _, _ => Raises OutOfModel
      end
  | _ => Returns {| recognizer := rec; subtitles := subs; subtitles_index := idx |}
  end.

(** The body of the [while] loop once [data] is not empty. *)
Definition on_chunk {env : Env} (confidence : float) (data : list frame)
    (st : loop_state env) : outcome (loop_state env) :=
  let '(rec1, accepted) := AcceptWaveform env (recognizer st) data in
  if accepted then
    let '(rec2, result) := Result env rec1 in
    on_result confidence rec2 (subtitles st) (subtitles_index st) result
  else
    Returns {| recognizer := rec1; subtitles := subtitles st;
               subtitles_index := subtitles_index st |}.

(** [wf.readframes(n)]: at most [n] frames, none once the stream is
    exhausted. *)
Definition readframes (n : nat) (wf : list frame) : list frame * list frame :=
  (firstn n wf, skipn n wf).

Definition chunk_frames : nat := 4000.

(** The [while True] loop, reading [nframes] frames at a time: it stops at
    the first read without data, that is when no frame is left (or none is
    asked for). *)
Equations? transcribe (env : Env) (confidence : float) (nframes : nat)
    (wf : list frame) (st : loop_state env)
    : outcome (loop_state env) by wf (length wf) lt :=
  transcribe env confidence 0 wf st := Returns st;
  transcribe env confidence (S n) [] st := Returns st;
  transcribe env confidence (S n) (f :: wf') st
    with on_chunk confidence (fst (readframes (S n) (f :: wf'))) st := {
    | Returns st' =>
        transcribe env confidence (S n) (snd (readframes (S n) (f :: wf'))) st'
    | Raises e => Raises e
    }.
Proof.
  unfold readframes; cbn [snd skipn]. rewrite length_skipn; cbn [length]. lia.
Qed.

Definition retrieve_text (env : Env) (self : ProcessVideo) : M string :=
  let model_path := "models/" +:+ model self in
  log (VoskModel model_path) ;;;
  match vosk_open env model_path with
  | None => raise VoskError
  | Some recognizer =>
      let wav_file :=
        PosixPath.join (video_dir self) (base_name self +:+ ".wav") in
      content <- read_text wav_file ;;
      match wave_frames env content with
      | None => raise WaveError
      | Some wf =>
          match transcribe env (confidence self) chunk_frames wf
                  {| recognizer := recognizer; subtitles := [];
                     subtitles_index := 1 |} with
          | Raises e => raise e
          | Returns st =>
              os_remove wav_file ;;;
              _save_srt env self (subtitles st)
          end
      end
  end.

(** [f"subtitles={srt_path}"], the path being [None] for the job that
    [run_processing] builds. *)
Definition str_path (p : option string) : string :=
  match p with
  | Some s => s
  | None => "None"
  end.

(** The stream that [burn_subtitles] builds before it runs it. *)
Definition burn_command (self : ProcessVideo) : ffmpeg_cmd :=
  let srt_path := srt_path self in
  let output_video_path := video_dir self in
  {| ff_input := video self;
     ff_output := output_video_path;
     ff_kwargs := [("vf", "subtitles=" +:+ str_path srt_path);
                   ("vcodec", "libx264"); ("acodec", "copy")];
     ff_overwrite := true |}.

Definition burn_subtitles (env : Env) (self : ProcessVideo) : M unit :=
  run_ffmpeg env (burn_command self) ;;;
  _cleanup self.

(** ** [class Translator] *)

(** [Translator.translate].  The engine is taken to return a translation:
    a language pair that is not installed, on which the call raises, is not
    modelled. *)
Definition translate (env : Env) (text : string) : M string :=
  log (ArgosTranslate text) ;;;
  ret (argos_translate env text).

(** ** The two background runs and their completion signals *)

Inductive signal : Type :=
| finished (srt_path : string)
| error (msg : string).

Inductive burn_signal : Type :=
| burn_finished (output_path : option string) (err : option string).

(** [MainWindow.run_processing]. *)
Definition run_processing (env : Env) (video_path save_dir : string) : M signal :=
  try_except
    (videoProcess <- __init__ video_path None save_dir default_model ;;
     extract_audio env videoProcess ;;;
     srt_path <- retrieve_text env videoProcess ;;
     ret (finished srt_path))
    (fun e => ret (error (str_exn e))).

Record PreviewWindow : Type := {
  pw_video_path : string;
  pw_srt_path : string;
  pw_save_dir : string
}.

(** [MainWindow.on_processing_finished]. *)
Definition on_processing_finished (video_path save_dir srt_path : string)
  : PreviewWindow :=
  {| pw_video_path := video_path; pw_srt_path := srt_path;
     pw_save_dir := save_dir |}.

(** [PreviewWindow.run_burning].  The signal it emits is taken to reach the
    handler connected to it with the two arguments given. *)
Definition run_burning (env : Env) (self : PreviewWindow) (output_path : string)
  : M burn_signal :=
  try_except
    (videoprocess <- __init__ (pw_video_path self) (Some (pw_srt_path self))
                       output_path default_model ;;
     burn_subtitles env videoprocess ;;;
     ret (burn_finished (Some output_path) None))
    (fun e => ret (burn_finished None (Some (str_exn e)))).

Inductive message_box : Type :=
| critical (text : string)
| information (text : string).

(** Truth value of the [error] argument. *)
Definition truthy (s : option string) : bool :=
  match s with
  | Some (String _ _) => true
  | _ => false
  end.

(** [PreviewWindow.on_burn_finished]: the message box shown, then the
    removal of the subtitle file. *)
Definition on_burn_finished (self : PreviewWindow)
    (output_path error : option string) : M message_box :=
  let box :=
    if truthy error then critical (str_path error)
    else information ("Subtitled video saved to: " +:+ str_path output_path) in
  os_remove (pw_srt_path self) ;;;
  ret box.

(** [PreviewWindow.start_burning], the background run and the delivery of
    its signal taken in sequence. *)
Definition output_path_of (self : PreviewWindow) : string :=
  let output_file :=
    PosixPath.stem (pw_video_path self) +:+ "_subtitled" +:+
    PosixPath.suffix (pw_video_path self) in
  PosixPath.div (pw_save_dir self) output_file.

Definition start_burning (env : Env) (self : PreviewWindow) (edited_srt : string)
  : M message_box :=
  translated_srt <- translate env edited_srt ;;
  write_text env locale_default (pw_srt_path self) translated_srt ;;;
  let output_path := output_path_of self in
  sig <- run_burning env self output_path ;;
  match sig with
  | burn_finished output_path err => on_burn_finished self output_path err
  end.

Local Close Scope py_scope.

(** ** The recognizer's output over a stream *)

(** The word groups that the recognizer finalizes while the stream [wf] is
    fed to it in chunks of [nframes] frames, in order: the values at key ["result"] of the
    results it hands out. *)
Equations? finalized (env : Env) (nframes : nat) (wf : list frame)
    (rec : rec_state env) : list (list Word) by wf (length wf) lt :=
  finalized env 0 wf rec := [];
  finalized env (S n) [] rec := [];
  finalized env (S n) (f :: wf') rec
    with AcceptWaveform env rec (fst (readframes (S n) (f :: wf'))) := {
    | (rec1, true) with Result env rec1 := {
      | (rec2, Some words) =>
          words :: finalized env (S n) (snd (readframes (S n) (f :: wf'))) rec2
      | (rec2, None) =>
          finalized env (S n) (snd (readframes (S n) (f :: wf'))) rec2
      }
    | (rec1, false) =>
        finalized env (S n) (snd (readframes (S n) (f :: wf'))) rec1
    }.
Proof.
  all: unfold readframes; cbn [snd skipn]; rewrite length_skipn; cbn [length]; lia.
Qed.

(** A group has a word: the test [if words:]. *)
Definition has_word (words : list Word) : bool :=
  match words with
  | [] => false
  | _ :: _ => true
  end.

(** A group has a word whose confidence exceeds the threshold. *)
Definition has_confident_word (confidence : float) (words : list Word) : bool :=
  existsb (fun w => PyFloat.gt (conf w) confidence) words.

(** The times that a group gives to its cue are in the range of
    [_format_timestamp]. *)
Definition timed (words : list Word) : Prop :=
  match words with
  | [] => True
  | w0 :: ws =>
      is_Some (_format_timestamp (start w0)) /\
      is_Some (_format_timestamp (end_ (List.last ws w0)))
  end.

(** The cue of a group that has a word, under the index [idx]. *)
Definition group_cue (confidence : float) (idx : Z) (words : list Word) : string :=
  match words with
  | [] => ""
  | w0 :: ws =>
      cue idx
        (default "" (_format_timestamp (start w0)))
        (default "" (_format_timestamp (end_ (List.last ws w0))))
        (cue_text confidence words)
  end.

(** ** Utterances and the timestamp of the specification *)

Record Utterance : Type := {
  index : Z;
  startTimestamp : string;
  endTimestamp : string;
  text : string
}.

(** The string that [retrieve_text] appends for an utterance. *)
Definition utterance_cue (u : Utterance) : string :=
  cue (index u) (startTimestamp u) (endTimestamp u) (text u).

(** The four lines of an utterance in the subtitle file. *)
Definition srt_block (u : Utterance) : list string :=
  [PyStr.str_int (index u);
   startTimestamp u +:+ " --> " +:+ endTimestamp u;
   text u;
   ""].

(** No field of the utterance holds a line break. *)
Definition one_line (u : Utterance) : Prop :=
  PyStr.lacks PyStr.newline (startTimestamp u) = true
  /\ PyStr.lacks PyStr.newline (endTimestamp u) = true
  /\ PyStr.lacks PyStr.newline (text u) = true.

(** The formatter as the specification words it: the millisecond field cut
    off, not rounded. *)
Definition spec_format_truncated (q : Q) : string :=
  let hours := Qfloor (q / 3600) in
  let minutes := Qfloor (PyFloat.qmod q 3600 / 60) in
  let millis := Qfloor (PyFloat.qmod q 60 * 1000) in
  PyStr.format_02d hours +:+ ":" +:+ PyStr.format_02d minutes +:+ ":" +:+
  PyStr.format_02d (millis / 1000) +:+ "," +:+
  PyStr.zero_pad 3 (PyStr.str_int (millis mod 1000)).

(** ** A scripted environment, for concrete runs *)

Module Scripted.

(** What the recognizer does on one chunk: it stays silent, or it
    finalizes a result, with or without the key ["result"]. *)
Inductive reaction : Type :=
| Quiet
| Final (result : option (list Word)).

Definition state : Type := (list reaction * option (list Word))%type.

Definition accept (st : state) (data : list frame) : state * bool :=
  match fst st with
  | [] => (([], None), false)
  | Quiet :: rest => ((rest, None), false)
  | Final result :: rest => ((rest, result), true)
  end.

Definition result (st : state) : state * option (list Word) :=
  ((fst st, None), snd st).

(** A transcoder that copies: it fails when its input is missing and
    writes its output otherwise. *)
Definition transcoder_ok (cmd : ffmpeg_cmd) (fs : gmap string string)
  : bool * gmap string string :=
  match fs !! ff_input cmd with
  | Some _ => (false, <[ff_output cmd := "media"]> fs)
  | None => (true, fs)
  end.

(** A transcoder that fails and leaves the files as they are. *)
Definition transcoder_failing (cmd : ffmpeg_cmd) (fs : gmap string string)
  : bool * gmap string string := (true, fs).

(** One frame for each byte of the file. *)
Definition frames_of (content : string) : option (list frame) :=
  Some (map (fun c => String c "") (list_ascii_of_string content)).

Definition env (transcoder : ffmpeg_cmd -> gmap string string -> bool * gmap string string)
    (script : list reaction) : Env :=
  {| ffmpeg_run := transcoder;
     rec_state := state;
     vosk_open := fun path =>
       if String.eqb path "models/vosk-model-fr-0.22" then Some (script, None)
       else None;
     AcceptWaveform := accept;
     Result := result;
     wave_frames := frames_of;
     argos_translate := fun text => text;
     locale_encode := fun text => text |}.

(** The state in which [retrieve_text] enters its loop. *)
Definition initial
    (transcoder : ffmpeg_cmd -> gmap string string -> bool * gmap string string)
    (script : list reaction) : loop_state (env transcoder script) :=
  {| recognizer := ((script, None) : rec_state (env transcoder script));
     subtitles := [];
     subtitles_index := 1 |}.

Definition a_word (s : string) (t0 t1 c : float) : Word :=
  {| word := s; start := t0; end_ := t1; conf := c |}.

(** One group, with no word above 0.6. *)
Definition one_group : list reaction :=
  [Final (Some [a_word "euh" 1.5 1.75 0.5])].

(** Three groups, the second with no word above 0.6. *)
Definition three_groups : list reaction :=
  [Final (Some [a_word "bonjour" 0.5 0.9 0.9]);
   Quiet;
   Final (Some [a_word "euh" 1.5 1.75 0.5]);
   Final (Some [a_word "tout" 2 2.25 0.7; a_word "le" 2.25 2.5 0.6;
                a_word "monde" 2.5 3 1])].

Definition world (l : list (string * string)) : World :=
  {| files := list_to_map l; invoked := [] |}.

End Scripted.

(** ** The stream as the loop cuts it *)

(** The successive non-empty values of [wf.readframes(nframes)]. *)
Equations? chunks (nframes : nat) (wf : list frame) : list (list frame)
    by wf (length wf) lt :=
  chunks 0 wf := [];
  chunks (S n) [] := [];
  chunks (S n) (f :: wf') :=
    fst (readframes (S n) (f :: wf')) ::
    chunks (S n) (snd (readframes (S n) (f :: wf'))).
Proof.
  unfold readframes; cbn [snd skipn]. rewrite length_skipn; cbn [length]. lia.
Qed.

(** The body of the loop run on given chunks, one after the other. *)
Fixpoint feed {env : Env} (confidence : float) (cs : list (list frame))
    (st : loop_state env) : outcome (loop_state env) :=
  match cs with
  | [] => Returns st
  | data :: cs' =>
      match on_chunk confidence data st with
      | Returns st' => feed confidence cs' st'
      | Raises e => Raises e
      end
  end.

(** ** [Translator.install_packages] *)

(** An entry of [argostranslate.package.get_available_packages()]. *)
Record package : Type := {
  from_code : string;
  to_code : string;
  archive : string
}.

(** The test of the [filter]. *)
Definition fr_to_en (x : package) : bool :=
  String.eqb (from_code x) "fr" && String.eqb (to_code x) "en".

Inductive install_outcome : Type :=
| Installed (p : package)
| StopIteration.

(** The package that [install_packages] downloads and installs, given the
    packages of the index in their order: [next] takes the first one that
    passes the filter and raises [StopIteration] when there is none. *)
Definition install_packages (available_packages : list package) : install_outcome :=
  match List.find fr_to_en available_packages with
  | Some packages => Installed packages
  | None => StopIteration
  end.

(** ** Seeking in the preview *)

(** The position that [seek_backward] sets, from [media_player.position()]. *)
Definition seek_backward (current_position : Z) : Z :=
  Z.max 0 (current_position - 5000).

(** The position that [seek_forward] sets, from [media_player.position()]
    and [media_player.duration()]. *)
Definition seek_forward (current_position duration : Z) : Z :=
  Z.min duration (current_position + 5000).

(** ** An environment without the acoustic model *)

(** The transcoder works, and no model can be created. *)
Definition env_without_model : Env :=
  {| ffmpeg_run := Scripted.transcoder_ok;
     rec_state := unit;
     vosk_open := fun _ => None;
     AcceptWaveform := fun st _ => (st, false);
     Result := fun st => (st, None);
     wave_frames := Scripted.frames_of;
     argos_translate := fun text => text;
     locale_encode := fun text => text |}.

(** * Properties *)

(** ** Files *)

Lemma world_eta (w : World) : {| files := files w; invoked := invoked w |} = w.
Proof. destruct w; reflexivity. Qed.

Lemma repr_body_plain (s : string) :
  PyStr.all_chars PyStr.plain s = true ->
  PyStr.repr_body PyStr.apostrophe s = s.
Proof.
  induction s as [|c s IH]; [reflexivity|].
  cbn [PyStr.all_chars PyStr.repr_body]. intros H.
  apply andb_prop in H as [Hc Hs]. rewrite (IH Hs).
  assert (Hchar : PyStr.repr_char PyStr.apostrophe c = String c "").
  { clear -Hc. destruct c as [[] [] [] [] [] [] [] []];
      first [discriminate Hc | reflexivity]. }
  rewrite Hchar. reflexivity.
Qed.

Lemma plain_lacks_apostrophe (s : string) :
  PyStr.all_chars PyStr.plain s = true -> PyStr.lacks PyStr.apostrophe s = true.
Proof.
  induction s as [|c s IH]; [reflexivity|].
  unfold PyStr.lacks in *. cbn [PyStr.all_chars]. intros H.
  apply andb_prop in H as [Hc Hs]. rewrite (IH Hs), andb_true_r.
  unfold PyStr.plain in Hc.
  apply andb_prop in Hc as [Hc _]. apply andb_prop in Hc as [_ Hc]. exact Hc.
Qed.

(** A path of plain characters is shown between apostrophes, as it is. *)
Lemma repr_plain (s : string) :
  PyStr.all_chars PyStr.plain s = true ->
  PyStr.repr s = "'" +:+ s +:+ "'".
Proof.
  intros H. unfold PyStr.repr.
  rewrite (plain_lacks_apostrophe s H). cbn [negb andb].
  now rewrite (repr_body_plain s H).
Qed.

(** C6.  The constructor of [ProcessVideo] checks the video and nothing
    else: on a world where the video path is not a file it raises
    [FileNotFoundError] with [ENOENT] and the path as the file name, and
    otherwise it returns the job; in both cases the world is as before, no
    file touched and no external tool run.  The background runs that start
    with it report the failure without having changed or invoked anything.
    The message of the error shows the path: for a path of printable ASCII
    characters without apostrophe or backslash it is
    [[Errno 2] No such file or directory: 'path']. *)
Theorem init_fails_fast (env : Env) (video save_dir model : string)
    (srt_path : option string) (w : World) :
  __init__ video srt_path save_dir model w =
    (if bool_decide (is_Some (files w !! video))
     then Returns {| video := video; model := model; confidence := 0.6%float;
                     video_dir := save_dir; srt_path := srt_path |}
     else Raises (FileNotFoundError 2 "No such file or directory" video),
     w)
  /\ (files w !! video = None ->
        (exists msg,
            run_processing env video save_dir w = (Returns (error msg), w)
            /\ (PyStr.all_chars PyStr.plain video = true ->
                msg = "[Errno 2] No such file or directory: '" +:+ video +:+ "'"))
        /\ forall self out, pw_video_path self = video ->
             exists msg,
               run_burning env self out w =
                 (Returns (burn_finished None (Some msg)), w)
               /\ (PyStr.all_chars PyStr.plain video = true ->
                   msg = "[Errno 2] No such file or directory: '" +:+ video +:+ "'"))
  /\ (PyStr.all_chars PyStr.plain video = true ->
      str_exn (FileNotFoundError 2 "No such file or directory" video) =
        "[Errno 2] No such file or directory: '" +:+ video +:+ "'").
Proof.
  assert (Hinit : __init__ video srt_path save_dir model w =
    (if bool_decide (is_Some (files w !! video))
     then Returns {| video := video; model := model; confidence := 0.6%float;
                     video_dir := save_dir; srt_path := srt_path |}
     else Raises (FileNotFoundError 2 "No such file or directory" video), w)).
  { unfold __init__, _video_exits, bind, os_path_exists, raise, ret.
    destruct (bool_decide (is_Some (files w !! video))); reflexivity. }
  assert (Hmsg : PyStr.all_chars PyStr.plain video = true ->
            str_exn (FileNotFoundError 2 "No such file or directory" video) =
              "[Errno 2] No such file or directory: '" +:+ video +:+ "'").
  { intros Hplain. unfold str_exn. rewrite (repr_plain video Hplain). reflexivity. }
  split; [exact Hinit|]. split; [|exact Hmsg].
  intros Hnone. split.
  - exists (str_exn (FileNotFoundError 2 "No such file or directory" video)).
    split; [|exact Hmsg].
    unfold run_processing, try_except, bind.
    unfold __init__, _video_exits, bind, os_path_exists, raise, ret.
    rewrite Hnone. rewrite bool_decide_eq_false_2 by (intros [? ?]; discriminate).
    reflexivity.
  - intros self out <-.
    exists (str_exn (FileNotFoundError 2 "No such file or directory"
                       (pw_video_path self))).
    split; [|exact Hmsg].
    unfold run_burning, try_except, bind.
    unfold __init__, _video_exits, bind, os_path_exists, raise, ret.
    rewrite Hnone. rewrite bool_decide_eq_false_2 by (intros [? ?]; discriminate).
    reflexivity.
Qed.

Example message_with_apostrophe :
  str_exn (FileNotFoundError 2 "No such file or directory" "/v/l'ete.mp4") =
    "[Errno 2] No such file or directory: " +:+
    String PyStr.double_quote ("/v/l'ete.mp4" +:+ String PyStr.double_quote "").
Proof. reflexivity. Qed.

Lemma os_remove_present p c w :
  files w !! p = Some c ->
  os_remove p w = (Returns tt, {| files := delete p (files w); invoked := invoked w |}).
Proof. intros H. unfold os_remove. rewrite H. reflexivity. Qed.

(** Removing a path when it is there comes to [delete], whether it is there
    or not. *)
Lemma remove_if_exists p w :
  bind (os_path_exists p) (fun there => if there then os_remove p else ret tt) w =
    (Returns tt, {| files := delete p (files w); invoked := invoked w |}).
Proof.
  unfold bind, os_path_exists, os_remove, ret.
  destruct (files w !! p) as [c|] eqn:Hp.
  - rewrite bool_decide_eq_true_2 by eauto. rewrite Hp. reflexivity.
  - rewrite bool_decide_eq_false_2 by (intros [? ?]; discriminate).
    rewrite delete_id by exact Hp. rewrite world_eta. reflexivity.
Qed.

Lemma _cleanup_eq (self : ProcessVideo) (w : World) :
  _cleanup self w =
    (Returns tt,
     {| files :=
          delete (PosixPath.join (video_dir self) (base_name self +:+ ".wav"))
            (delete (PosixPath.join (video_dir self) (base_name self +:+ ".srt"))
               (files w));
        invoked := invoked w |}).
Proof.
  unfold _cleanup.
  set (srt := PosixPath.join _ (_ +:+ ".srt")).
  set (wav := PosixPath.join _ (_ +:+ ".wav")).
  pose proof (remove_if_exists srt w) as Hs.
  pose proof (remove_if_exists wav
                {| files := delete srt (files w); invoked := invoked w |}) as Hw.
  unfold bind in *.
  destruct (os_path_exists srt w) as [[b|e] w1] eqn:E1; [|discriminate].
  destruct ((if b then os_remove srt else ret tt) w1) as [[[]|e] w2] eqn:E2;
    [|discriminate].
  inversion Hs; subst w2. exact Hw.
Qed.

(** C8.  [_cleanup] never fails: it leaves the files without the derived
    [.srt] and [.wav] paths and everything else as it was, so both are
    deleted when present; when both are already absent the world is
    unchanged; and a second call changes nothing more. *)
Theorem cleanup_idempotent (self : ProcessVideo) (w : World) :
  let srt_file := PosixPath.join (video_dir self) (base_name self +:+ ".srt") in
  let wav_file := PosixPath.join (video_dir self) (base_name self +:+ ".wav") in
  exists w',
    _cleanup self w = (Returns tt, w')
    /\ files w' !! srt_file = None
    /\ files w' !! wav_file = None
    /\ (forall p, p <> srt_file -> p <> wav_file -> files w' !! p = files w !! p)
    /\ invoked w' = invoked w
    /\ (files w !! srt_file = None -> files w !! wav_file = None -> w' = w)
    /\ _cleanup self w' = (Returns tt, w').
Proof.
  intros srt_file wav_file.
  eexists. split; [apply _cleanup_eq|]. cbn [files invoked].
  fold srt_file wav_file.
  assert (Hs : delete wav_file (delete srt_file (files w)) !! srt_file = None).
  { rewrite lookup_delete. case_decide; [reflexivity|]. apply lookup_delete_eq. }
  assert (Hw : delete wav_file (delete srt_file (files w)) !! wav_file = None)
    by apply lookup_delete_eq.
  repeat split.
  - exact Hs.
  - exact Hw.
  - intros p Hp1 Hp2. rewrite !lookup_delete_ne by congruence. reflexivity.
  - intros H1 H2. rewrite (delete_id _ srt_file) by exact H1.
    rewrite delete_id by exact H2. apply world_eta.
  - rewrite _cleanup_eq. cbn [files invoked]. fold srt_file wav_file.
    rewrite (delete_id _ srt_file) by exact Hs.
    rewrite (delete_id _ wav_file) by exact Hw. reflexivity.
Qed.

(** ** Strings *)

Section StringFacts.

Import PyStr.

Lemma append_nil (b : string) : "" +:+ b = b.
Proof. reflexivity. Qed.

Lemma append_cons (x : ascii) (a b : string) :
  String x a +:+ b = String x (a +:+ b).
Proof. reflexivity. Qed.

Lemma length_append (a b : string) :
  String.length (a +:+ b) = (String.length a + String.length b)%nat.
Proof.
  induction a as [|x a IH]; [reflexivity|].
  rewrite append_cons. simpl. now rewrite IH.
Qed.

Lemma append_assoc (a b c : string) : (a +:+ b) +:+ c = a +:+ (b +:+ c).
Proof.
  induction a as [|x a IH]; [reflexivity|].
  rewrite !append_cons. now rewrite IH.
Qed.

Lemma append_empty_r (a : string) : a +:+ "" = a.
Proof.
  induction a as [|x a IH]; [reflexivity|].
  rewrite append_cons. now rewrite IH.
Qed.

Lemma length_take (n : nat) (s : string) :
  String.length (take n s) = Nat.min n (String.length s).
Proof.
  revert s; induction n as [|n IH]; intros [|c s]; simpl; try reflexivity.
  now rewrite IH.
Qed.

Lemma take_app_exact (a b : string) : take (String.length a) (a +:+ b) = a.
Proof.
  induction a as [|x a IH]; [now destruct b|].
  rewrite append_cons. simpl. now rewrite IH.
Qed.

Lemma length_drop_last4 (s : string) :
  String.length (drop_last4 s) = (String.length s - 4)%nat.
Proof. unfold drop_last4. rewrite length_take. lia. Qed.

Lemma drop_last4_app (stem ext : string) :
  String.length ext = 4%nat -> drop_last4 (stem +:+ ext) = stem.
Proof.
  intros H. unfold drop_last4. rewrite length_append, H.
  replace (String.length stem + 4 - 4)%nat with (String.length stem) by lia.
  apply take_app_exact.
Qed.

Lemma all_chars_app (p : ascii -> bool) (a b : string) :
  all_chars p (a +:+ b) = all_chars p a && all_chars p b.
Proof.
  induction a as [|x a IH]; [reflexivity|].
  rewrite append_cons. simpl. now rewrite IH, andb_assoc.
Qed.

(** Splitting at a separator that the first piece lacks. *)
Lemma split_app (sep : ascii) (a b : string) :
  lacks sep a = true ->
  split sep (a +:+ String sep b) = a :: split sep b.
Proof.
  induction a as [|x a IH]; intros H.
  - rewrite append_nil. simpl. now rewrite Ascii.eqb_refl.
  - rewrite append_cons. simpl in *.
    apply andb_prop in H as [Hc Ha]. apply negb_true_iff in Hc.
    rewrite Hc, (IH Ha). reflexivity.
Qed.

Lemma split_lacks (sep : ascii) (a : string) :
  lacks sep a = true -> split sep a = [a].
Proof.
  induction a as [|x a IH]; simpl; intros H; [reflexivity|].
  apply andb_prop in H as [Hc Ha]. apply negb_true_iff in Hc.
  rewrite Hc, (IH Ha). reflexivity.
Qed.

(** Joining words that lack the separator and splitting again gives the
    words back. *)
Lemma split_join (sep : ascii) (l : list string) :
  l <> [] ->
  Forall (fun x => lacks sep x = true) l ->
  split sep (join (String sep "") l) = l.
Proof.
  induction l as [|x l IH]; intros Hne Hall; [congruence|].
  inversion Hall as [|? ? Hx Hl]; subst.
  destruct l as [|y l].
  - simpl. now apply split_lacks.
  - change (join (String sep "") (x :: y :: l))
      with (x +:+ String sep "" +:+ join (String sep "") (y :: l)).
    rewrite append_cons, append_nil.
    rewrite split_app by exact Hx. f_equal. apply IH; [congruence | exact Hl].
Qed.

Lemma digit_char_is_digit (n : Z) : is_digit (digit_char (n mod 10)) = true.
Proof.
  assert (H : 0 <= n mod 10 < 10) by (apply Z.mod_pos_bound; lia).
  assert (Hc : n mod 10 = 0 \/ n mod 10 = 1 \/ n mod 10 = 2 \/ n mod 10 = 3 \/
               n mod 10 = 4 \/ n mod 10 = 5 \/ n mod 10 = 6 \/ n mod 10 = 7 \/
               n mod 10 = 8 \/ n mod 10 = 9) by lia.
  repeat destruct Hc as [Hc|Hc]; rewrite Hc; reflexivity.
Qed.

Lemma dec_digits_digits (fuel : nat) (n : Z) (acc : string) :
  all_chars is_digit acc = true ->
  all_chars is_digit (dec_digits fuel n acc) = true.
Proof.
  revert n acc; induction fuel as [|k IH]; intros n acc Hacc;
    cbn [dec_digits]; [exact Hacc|].
  destruct (Z.eqb (n / 10) 0).
  - cbn [all_chars]. now rewrite digit_char_is_digit, Hacc.
  - apply IH. cbn [all_chars]. now rewrite digit_char_is_digit, Hacc.
Qed.

Lemma str_int_digits (n : Z) : all_chars is_digit (str_int n) = true.
Proof. unfold str_int. now apply dec_digits_digits. Qed.

Lemma all_chars_impl (p q : ascii -> bool) (s : string) :
  (forall c, p c = true -> q c = true) ->
  all_chars p s = true -> all_chars q s = true.
Proof.
  intros Hpq. induction s as [|c s IH]; simpl; [reflexivity|].
  intros H. apply andb_prop in H as [Hc Hs]. now rewrite (Hpq c Hc), IH.
Qed.

(** A character that is no digit does not occur in digits. *)
Lemma digits_lack (c : ascii) (s : string) :
  is_digit c = false -> all_chars is_digit s = true -> lacks c s = true.
Proof.
  intros Hc. apply all_chars_impl. intros x Hx.
  apply negb_true_iff. destruct (Ascii.eqb_spec x c) as [->|]; congruence.
Qed.

Lemma str_int_lacks (c : ascii) (n : Z) :
  is_digit c = false -> lacks c (str_int n) = true.
Proof. intros Hc. apply digits_lack; [exact Hc | apply str_int_digits]. Qed.

End StringFacts.

(** ** Working-file paths *)

Lemma run_ffmpeg_eq (env : Env) (cmd : ffmpeg_cmd) (w : World) :
  run_ffmpeg env cmd w =
    ((if fst (ffmpeg_run env cmd (files w)) then Raises FfmpegError else Returns tt),
     {| files := snd (ffmpeg_run env cmd (files w));
        invoked := invoked w ++ [Ffmpeg cmd] |}).
Proof.
  unfold run_ffmpeg, bind, log. cbn [files invoked].
  destruct (ffmpeg_run env cmd (files w)) as [failed fs]. reflexivity.
Qed.

Lemma extract_audio_eq (env : Env) (self : ProcessVideo) (w : World) :
  extract_audio env self w =
    ((if fst (ffmpeg_run env (extract_command self) (files w))
      then Raises FfmpegError else Returns tt),
     {| files := snd (ffmpeg_run env (extract_command self) (files w));
        invoked := invoked w ++ [Ffmpeg (extract_command self)] |}).
Proof. apply run_ffmpeg_eq. Qed.

Lemma _save_srt_eq (env : Env) (self : ProcessVideo) (subs : list string) (w : World) :
  _save_srt env self subs w =
    (Returns (PosixPath.join (video_dir self) (base_name self +:+ ".srt")),
     {| files := <[PosixPath.join (video_dir self) (base_name self +:+ ".srt")
                   := written subs]> (files w);
        invoked := invoked w |}).
Proof. reflexivity. Qed.

Lemma retrieve_text_no_wav (env : Env) (self : ProcessVideo) (w : World)
    (rec : rec_state env) :
  vosk_open env ("models/" +:+ model self) = Some rec ->
  files w !! PosixPath.join (video_dir self) (base_name self +:+ ".wav") = None ->
  fst (retrieve_text env self w) =
    Raises (FileNotFoundError ENOENT strerror_ENOENT
              (PosixPath.join (video_dir self) (base_name self +:+ ".wav"))).
Proof.
  intros Hrec Hwav. unfold retrieve_text, bind, log. rewrite Hrec.
  unfold read_text. cbn [files]. rewrite Hwav. reflexivity.
Qed.

(** C10.  Every working-file path is the save directory joined with the
    video's base file name less its last four characters and the new
    extension: the transcoder is told to write that [.wav], the transcriber
    opens that [.wav], the subtitles are saved at that [.srt], and cleanup
    deletes those two.  When the extension has four characters (a dot and
    three) what is left is the stem; when it has not, and the stem is not
    empty, what is left is not the stem, the same wrong name at all four
    places. *)
Theorem working_paths_strip_four (env : Env) (self : ProcessVideo)
    (stem ext : string) (w : World) :
  PosixPath.basename (video self) = stem +:+ ext ->
  let base := PyStr.drop_last4 (stem +:+ ext) in
  let wav := PosixPath.join (video_dir self) (base +:+ ".wav") in
  let srt := PosixPath.join (video_dir self) (base +:+ ".srt") in
  (exists cmd,
      invoked (snd (extract_audio env self w)) = (invoked w ++ [Ffmpeg cmd])%list
      /\ ff_output cmd = wav)
  /\ (forall rec, vosk_open env ("models/" +:+ model self) = Some rec ->
        files w !! wav = None ->
        fst (retrieve_text env self w) =
          Raises (FileNotFoundError 2 "No such file or directory" wav))
  /\ (forall subs, fst (_save_srt env self subs w) = Returns srt)
  /\ files (snd (_cleanup self w)) = delete wav (delete srt (files w))
  /\ String.length base = (String.length stem + String.length ext - 4)%nat
  /\ (String.length ext = 4%nat -> base = stem)
  /\ (String.length ext <> 4%nat -> stem <> "" -> base <> stem).
Proof.
  intros Hname base wav srt.
  assert (Hbase : base_name self = base) by (unfold base_name; now rewrite Hname).
  repeat split.
  - eexists. rewrite extract_audio_eq. cbn [snd invoked]. split; [reflexivity|].
    unfold extract_command. cbn [ff_output]. now rewrite Hbase.
  - intros rec Hrec Hwav. unfold wav in *. rewrite <- Hbase in *.
    now apply (retrieve_text_no_wav env self w rec).
  - intros subs. rewrite _save_srt_eq. cbn [fst]. now rewrite Hbase.
  - rewrite _cleanup_eq. cbn [snd files]. now rewrite Hbase.
  - unfold base. now rewrite length_drop_last4, length_append.
  - intros H4. now apply drop_last4_app.
  - intros Hne Hstem Heq.
    assert (Hlen : String.length base = String.length stem) by now rewrite Heq.
    unfold base in Hlen. rewrite length_drop_last4, length_append in Hlen.
    destruct stem; [congruence|]. cbn [String.length] in Hlen. lia.
Qed.

Lemma working_paths_strip_four_witness :
  PosixPath.basename "/videos/clip.mpeg" = "clip" +:+ ".mpeg"
  /\ (exists cmd,
        invoked (snd (extract_audio (Scripted.env Scripted.transcoder_ok [])
                        {| video := "/videos/clip.mpeg"; model := default_model;
                           confidence := 0.6%float; video_dir := "/out";
                           srt_path := None |}
                        (Scripted.world [("/videos/clip.mpeg", "a")])))
          = [Ffmpeg cmd]
        /\ ff_output cmd = "/out/clip..wav").
Proof.
  split; [reflexivity|].
  exact (proj1 (working_paths_strip_four
                  (Scripted.env Scripted.transcoder_ok [])
                  {| video := "/videos/clip.mpeg"; model := default_model;
                     confidence := 0.6%float; video_dir := "/out";
                     srt_path := None |}
                  "clip" ".mpeg"
                  (Scripted.world [("/videos/clip.mpeg", "a")])
                  eq_refl)).
Defined.

Example base_name_mp4 : PyStr.drop_last4 "talk.mp4" = "talk".
Proof. reflexivity. Qed.

Example base_name_mpeg : PyStr.drop_last4 "clip.mpeg" = "clip.".
Proof. reflexivity. Qed.

Example base_name_ts : PyStr.drop_last4 "a.ts" = "".
Proof. reflexivity. Qed.

Example base_name_none : PyStr.drop_last4 "movie" = "m".
Proof. reflexivity. Qed.

(** ** The confidence filter *)

Lemma SFltb_irrefl (x : spec_float) : SFltb x x = false.
Proof.
  unfold SFltb, SFcompare.
  destruct x as [s|s| |s m e]; try destruct s; try reflexivity;
    rewrite Z.compare_refl, Pos.compare_cont_refl; reflexivity.
Qed.

(** No float exceeds itself. *)
Lemma gt_irrefl (x : float) : PyFloat.gt x x = false.
Proof. unfold PyFloat.gt. rewrite ltb_spec. apply SFltb_irrefl. Qed.

Lemma on_result_words (env : Env) (confidence : float) (rec : rec_state env)
    (subs : list string) (idx : Z) (w0 : Word) (ws : list Word) (s e : string) :
  _format_timestamp (start w0) = Some s ->
  _format_timestamp (end_ (List.last ws w0)) = Some e ->
  on_result confidence rec subs idx (Some (w0 :: ws)) =
    Returns {| recognizer := rec;
               subtitles := subs ++ [cue idx s e (cue_text confidence (w0 :: ws))];
               subtitles_index := idx + 1 |}.
Proof. intros Hs He. unfold on_result. rewrite Hs, He. reflexivity. Qed.

(** C5.  For every threshold and word group the words kept for the cue
    are, in their order, those whose confidence is above the threshold, a
    word whose confidence equals the threshold being dropped; the text of
    the cue that the group emits is these words joined by one space, so that
    splitting it at the spaces gives them back when no word holds a space.
    With the threshold 0.6 and confidences 0.9, 0.5 and 0.7 the text is the
    first and the third word with a space between, and a word at 0.6 is
    dropped. *)
Theorem confidence_filter_strict (env : Env) (confidence : float)
    (words : list Word) :
  (forall w, In w (kept confidence words) <->
             In w words /\ PrimFloat.ltb confidence (conf w) = true)
  /\ (forall w, conf w = confidence -> ~ In w (kept confidence words))
  /\ kept confidence words =
       List.filter (fun w => PrimFloat.ltb confidence (conf w)) words
  /\ (forall (rec : rec_state env) subs idx w0 ws s e,
        words = w0 :: ws ->
        _format_timestamp (start w0) = Some s ->
        _format_timestamp (end_ (List.last ws w0)) = Some e ->
        exists st,
          on_result confidence rec subs idx (Some words) = Returns st
          /\ subtitles st =
               subs ++ [cue idx s e (PyStr.join " " (map word (kept confidence words)))])
  /\ (kept confidence words <> [] ->
      Forall (fun w => PyStr.lacks " " (word w) = true) words ->
      PyStr.split " " (cue_text confidence words) = map word (kept confidence words))
  /\ cue_text 0.6%float
       [Scripted.a_word "un" 0 0.4 0.9; Scripted.a_word "deux" 0.4 0.8 0.5;
        Scripted.a_word "trois" 0.8 1.2 0.7] = "un trois"
  /\ cue_text 0.6%float
       [Scripted.a_word "un" 0 0.4 0.6; Scripted.a_word "deux" 0.4 0.8 1] = "deux".
Proof.
  split; [|split; [|split; [|split; [|split; [|split]]]]].
  - intros w. unfold kept. rewrite filter_In. reflexivity.
  - intros w Hw Hin. unfold kept in Hin. apply filter_In in Hin as [_ Hgt].
    rewrite Hw, gt_irrefl in Hgt. discriminate.
  - reflexivity.
  - intros rec subs idx w0 ws s e -> Hs He. eexists.
    split; [apply on_result_words; eassumption|]. reflexivity.
  - intros Hne Hall. unfold cue_text.
    change " " with (String " "%char "") at 1.
    apply split_join.
    + intros Hnil. apply Hne. now destruct (kept confidence words).
    + apply List.Forall_forall. intros x Hx. apply in_map_iff in Hx as [w [<- Hw]].
      rewrite List.Forall_forall in Hall. apply Hall.
      unfold kept in Hw. apply filter_In in Hw. tauto.
  - vm_compute. reflexivity.
  - vm_compute. reflexivity.
Qed.

(** ** The transcription loop *)

(** Brings a goal [Forall timed l] on a closed stream down to its groups. *)
Ltac timed_groups :=
  match goal with
  | |- Forall timed ?l =>
      let l' := eval vm_compute in l in
      change (Forall timed l');
      repeat constructor; eexists; vm_compute; reflexivity
  end.

Lemma transcribe_cons (env : Env) (c : float) (n : nat) (f : frame)
    (wf' : list frame) (st : loop_state env) :
  transcribe env c (S n) (f :: wf') st =
    match on_chunk c (firstn (S n) (f :: wf')) st with
    | Returns st' => transcribe env c (S n) (skipn (S n) (f :: wf')) st'
    | Raises e => Raises e
    end.
Proof.
  simp transcribe. unfold readframes. cbn [fst snd].
  destruct (on_chunk c (firstn (S n) (f :: wf')) st); reflexivity.
Qed.

Lemma finalized_cons (env : Env) (n : nat) (f : frame) (wf' : list frame)
    (rec : rec_state env) :
  finalized env (S n) (f :: wf') rec =
    match AcceptWaveform env rec (firstn (S n) (f :: wf')) with
    | (rec1, true) =>
        match Result env rec1 with
        | (rec2, Some words) =>
            words :: finalized env (S n) (skipn (S n) (f :: wf')) rec2
        | (rec2, None) => finalized env (S n) (skipn (S n) (f :: wf')) rec2
        end
    | (rec1, false) => finalized env (S n) (skipn (S n) (f :: wf')) rec1
    end.
Proof.
  simp finalized. unfold readframes. cbn [fst snd].
  destruct (AcceptWaveform env rec (firstn (S n) (f :: wf'))) as [rec1 [|]];
    cbn; [|reflexivity].
  destruct (Result env rec1) as [rec2 [words|]]; reflexivity.
Qed.

(** The cues that a run of the loop appends: one for each finalized group
    that has a word, numbered on from the index the loop starts with. *)
Lemma transcribe_emits (env : Env) (c : float) (n : nat) (wf : list frame) :
  forall st : loop_state env,
    Forall timed (finalized env n wf (recognizer st)) ->
    exists st',
      transcribe env c n wf st = Returns st'
      /\ subtitles st' =
           subtitles st ++
           imap (fun i ws => group_cue c (subtitles_index st + Z.of_nat i) ws)
             (List.filter has_word (finalized env n wf (recognizer st)))
      /\ subtitles_index st' =
           subtitles_index st +
           Z.of_nat (length (List.filter has_word (finalized env n wf (recognizer st)))).
Proof.
  remember (length wf) as m eqn:Hm. revert wf Hm.
  induction m as [m IH] using lt_wf_ind. intros wf Hm st Htimed.
  destruct n as [|n].
  { exists st. simp transcribe finalized. cbn.
    rewrite app_nil_r, Z.add_0_r. auto. }
  destruct wf as [|f wf'].
  { exists st. simp transcribe finalized. cbn.
    rewrite app_nil_r, Z.add_0_r. auto. }
  assert (Hrest : (length (skipn (S n) (f :: wf')) < m)%nat).
  { subst m. rewrite length_skipn. cbn [length]. lia. }
  rewrite transcribe_cons. rewrite finalized_cons in Htimed |- *.
  unfold on_chunk.
  destruct (AcceptWaveform env (recognizer st) (firstn (S n) (f :: wf')))
    as [rec1 [|]].
  - destruct (Result env rec1) as [rec2 [[|w0 ws]|]].
    + (* a group without a word *)
      inversion Htimed as [|? ? _ Htimed']; subst.
      cbn [on_result List.filter has_word].
      destruct (IH _ Hrest _ eq_refl
                  {| recognizer := rec2; subtitles := subtitles st;
                     subtitles_index := subtitles_index st |} Htimed')
        as [st' [Hrun [Hsubs Hidx]]].
      exists st'. auto.
    + (* a group with a word: one more cue *)
      inversion Htimed as [|? ? Ht Htimed']; subst.
      destruct Ht as [[s Hs] [e He]].
      rewrite (on_result_words env c rec2 _ _ w0 ws s e Hs He).
      destruct (IH _ Hrest _ eq_refl
                  {| recognizer := rec2;
                     subtitles := subtitles st ++
                       [cue (subtitles_index st) s e (cue_text c (w0 :: ws))];
                     subtitles_index := subtitles_index st + 1 |} Htimed')
        as [st' [Hrun [Hsubs Hidx]]].
      cbn [recognizer subtitles subtitles_index] in Hrun, Hsubs, Hidx.
      exists st'. split; [exact Hrun|].
      cbn [List.filter has_word]. rewrite imap_cons. cbn [length]. split.
      * rewrite Hsubs, <- List.app_assoc. f_equal. cbn [app]. f_equal.
        -- unfold group_cue. rewrite Hs, He, Z.add_0_r. reflexivity.
        -- apply imap_ext. intros i ws' _. cbn. f_equal. lia.
      * rewrite Hidx. lia.
    + (* a result without the key *)
      cbn [on_result].
      destruct (IH _ Hrest _ eq_refl
                  {| recognizer := rec2; subtitles := subtitles st;
                     subtitles_index := subtitles_index st |} Htimed)
        as [st' [Hrun [Hsubs Hidx]]].
      exists st'. auto.
  - destruct (IH _ Hrest _ eq_refl
                {| recognizer := rec1; subtitles := subtitles st;
                   subtitles_index := subtitles_index st |} Htimed)
      as [st' [Hrun [Hsubs Hidx]]].
    exists st'. auto.
Qed.

Lemma has_word_of_confident (c : float) (ws : list Word) :
  has_confident_word c ws = true -> has_word ws = true.
Proof. destruct ws; [discriminate | reflexivity]. Qed.

(** C1, as the loop has it.  Whatever the recognizer finalizes on the
    stream, as long as the times it reports can be formatted, the loop
    returns, and the cues it has collected are those of the finalized groups
    that have at least one word, in order, the cue at position [i] (from 0)
    starting with the line [i + 1]: the indices are [1..K] without gap, [K]
    being the number of finalized groups with a word.  A group with a word
    above the threshold is among them, and so is every other group that has
    a word: only the groups without any word are passed over. *)
Theorem cue_indices_contiguous (env : Env) (c : float) (n : nat)
    (wf : list frame) (rec : rec_state env) :
  let groups := finalized env n wf rec in
  let emitted := List.filter has_word groups in
  Forall timed groups ->
  exists st',
    transcribe env c n wf
      {| recognizer := rec; subtitles := []; subtitles_index := 1 |} = Returns st'
    /\ length (subtitles st') = length emitted
    /\ subtitles_index st' = 1 + Z.of_nat (length emitted)
    /\ (forall i ws, emitted !! i = Some ws ->
          subtitles st' !! i = Some (group_cue c (Z.of_nat i + 1) ws)
          /\ exists rest,
               group_cue c (Z.of_nat i + 1) ws =
                 PyStr.str_int (Z.of_nat i + 1) +:+ nl +:+ rest)
    /\ (forall ws, In ws groups -> has_confident_word c ws = true -> In ws emitted)
    /\ (forall ws, In ws groups -> ws <> [] -> In ws emitted).
Proof.
  intros groups emitted Htimed.
  destruct (transcribe_emits env c n wf
              {| recognizer := rec; subtitles := []; subtitles_index := 1 |} Htimed)
    as [st' [Hrun [Hsubs Hidx]]].
  cbn [recognizer subtitles subtitles_index app] in Hsubs, Hidx.
  fold groups in Hsubs, Hidx. fold emitted in Hsubs, Hidx.
  exists st'. split; [exact Hrun|].
  split; [now rewrite Hsubs, length_imap|].
  split; [exact Hidx|].
  split; [|split].
  - intros i ws Hi. split.
    + rewrite Hsubs, list_lookup_imap, Hi. cbn. do 2 f_equal. lia.
    + assert (Hw : has_word ws = true).
      { apply list_elem_of_lookup_2 in Hi. apply list_elem_of_In in Hi.
        unfold emitted in Hi. now apply filter_In in Hi. }
      destruct ws as [|w0 ws]; [discriminate|].
      unfold group_cue, cue. eexists. reflexivity.
  - intros ws Hin Hc. apply filter_In. split; [exact Hin|].
    now apply (has_word_of_confident c).
  - intros ws Hin Hne. apply filter_In. split; [exact Hin|].
    now destruct ws.
Qed.

Lemma cue_indices_contiguous_witness :
  exists st',
    transcribe _ 0.6%float 1 (default [] (Scripted.frames_of "abcd"))
      (Scripted.initial Scripted.transcoder_ok Scripted.three_groups) = Returns st'
    /\ length (subtitles st') = 3%nat.
Proof.
  destruct (cue_indices_contiguous
              (Scripted.env Scripted.transcoder_ok Scripted.three_groups)
              0.6%float 1 (default [] (Scripted.frames_of "abcd"))
              (Scripted.three_groups, None)) as [st' [Hrun [Hlen _]]].
  - timed_groups.
  - exists st'. split; [exact Hrun|]. rewrite Hlen. vm_compute. reflexivity.
Defined.

Example three_groups_three_cues :
  match transcribe _ 0.6%float 1 (default [] (Scripted.frames_of "abcd"))
          (Scripted.initial Scripted.transcoder_ok Scripted.three_groups) with
  | Returns st => subtitles st
  | Raises _ => []
  end =
    ["1" +:+ nl +:+ "00:00:00,500 --> 00:00:00,900" +:+ nl +:+ "bonjour" +:+ nl;
     "2" +:+ nl +:+ "00:00:01,500 --> 00:00:01,750" +:+ nl +:+ "" +:+ nl;
     "3" +:+ nl +:+ "00:00:02,000 --> 00:00:03,000" +:+ nl +:+ "tout monde" +:+ nl].
Proof. vm_compute. reflexivity. Qed.

(** C1 as it is worded fails: the one group that the recognizer finalizes
    has no word above the threshold, so that no group has such a word, and
    yet a cue is emitted for it, under the index 1 and with an empty
    text. *)
Lemma cue_for_unconfident_group :
  match transcribe _ 0.6%float chunk_frames (default [] (Scripted.frames_of "abcd"))
          (Scripted.initial Scripted.transcoder_ok Scripted.one_group) with
  | Returns st => subtitles st
  | Raises _ => []
  end = ["1" +:+ nl +:+ "00:00:01,500 --> 00:00:01,750" +:+ nl +:+ "" +:+ nl]
  /\ finalized (Scripted.env Scripted.transcoder_ok Scripted.one_group)
       chunk_frames (default [] (Scripted.frames_of "abcd"))
       (Scripted.one_group, None) = [[Scripted.a_word "euh" 1.5 1.75 0.5]]
  /\ List.filter (has_confident_word 0.6%float)
       [[Scripted.a_word "euh" 1.5 1.75 0.5]] = [].
Proof. repeat split; vm_compute; reflexivity. Qed.

(** ** Transcribing a stream without frames *)

(** C7.  On a WAV file without a frame (the first read gives no data), the
    model being there, [retrieve_text] raises nothing: the loop ends on its
    entry with the empty list of subtitles, the WAV file is removed, the
    subtitle file is written empty, and its path is returned. *)
Theorem empty_wav_empty_subtitles (env : Env) (self : ProcessVideo) (w : World)
    (rec : rec_state env) (content : string) :
  let wav := PosixPath.join (video_dir self) (base_name self +:+ ".wav") in
  let srt := PosixPath.join (video_dir self) (base_name self +:+ ".srt") in
  vosk_open env ("models/" +:+ model self) = Some rec ->
  files w !! wav = Some content ->
  wave_frames env content = Some [] ->
  (exists st,
     transcribe env (confidence self) chunk_frames []
       {| recognizer := rec; subtitles := []; subtitles_index := 1 |} = Returns st
     /\ subtitles st = [])
  /\ written [] = ""
  /\ retrieve_text env self w =
       (Returns srt,
        {| files := <[srt := ""]> (delete wav (files w));
           invoked := invoked w ++ [VoskModel ("models/" +:+ model self)] |}).
Proof.
  intros wav srt Hrec Hwav Hframes. split; [|split; [reflexivity|]].
  - eexists. split; [unfold chunk_frames; simp transcribe; reflexivity|].
    reflexivity.
  - unfold retrieve_text, bind, log. rewrite Hrec.
    unfold read_text. cbn [files invoked]. fold wav. rewrite Hwav, Hframes.
    unfold chunk_frames. simp transcribe. cbn [subtitles].
    unfold os_remove. cbn [files invoked]. rewrite Hwav.
    reflexivity.
Qed.

Lemma empty_wav_empty_subtitles_witness :
  retrieve_text (Scripted.env Scripted.transcoder_ok Scripted.three_groups)
    {| video := "/v/talk.mp4"; model := default_model; confidence := 0.6%float;
       video_dir := "/out"; srt_path := None |}
    (Scripted.world [("/v/talk.mp4", "video"); ("/out/talk.wav", "")])
  = (Returns "/out/talk.srt",
     {| files := <["/out/talk.srt" := ""]>
                   (delete "/out/talk.wav"
                      (files (Scripted.world
                                [("/v/talk.mp4", "video"); ("/out/talk.wav", "")])));
        invoked := [VoskModel "models/vosk-model-fr-0.22"] |}).
Proof.
  exact (proj2 (proj2 (empty_wav_empty_subtitles
           (Scripted.env Scripted.transcoder_ok Scripted.three_groups)
           {| video := "/v/talk.mp4"; model := default_model;
              confidence := 0.6%float; video_dir := "/out"; srt_path := None |}
           (Scripted.world [("/v/talk.mp4", "video"); ("/out/talk.wav", "")])
           (Scripted.three_groups, None) ""
           eq_refl eq_refl eq_refl))).
Defined.

(** ** The subtitle file *)

Lemma written_from (subs : list string) (buf : string) :
  fold_left (fun buf subtitle => buf +:+ (subtitle +:+ nl)) subs buf =
    buf +:+ written subs.
Proof.
  unfold written. revert buf.
  induction subs as [|x subs IH]; intros buf; cbn [fold_left].
  - now rewrite append_empty_r.
  - rewrite IH, (IH ("" +:+ (x +:+ nl))), append_nil, !append_assoc. reflexivity.
Qed.

Lemma written_cons (x : string) (subs : list string) :
  written (x :: subs) = x +:+ nl +:+ written subs.
Proof.
  unfold written at 1. cbn [fold_left].
  now rewrite written_from, append_nil, !append_assoc.
Qed.

Lemma lacks_app (c : ascii) (a b : string) :
  PyStr.lacks c (a +:+ b) = PyStr.lacks c a && PyStr.lacks c b.
Proof. apply all_chars_app. Qed.

Lemma split_line (a rest : string) :
  PyStr.lacks PyStr.newline a = true ->
  PyStr.split PyStr.newline (a +:+ nl +:+ rest) =
    a :: PyStr.split PyStr.newline rest.
Proof.
  intros Ha. change (nl +:+ rest) with (String PyStr.newline rest).
  now apply split_app.
Qed.

(** The lines of the file: four for each utterance, then what follows the
    last line break. *)
Lemma written_lines (us : list Utterance) :
  Forall one_line us ->
  PyStr.split PyStr.newline (written (map utterance_cue us)) =
    flat_map srt_block us ++ [""].
Proof.
  induction us as [|u us IH]; intros Hall; [reflexivity|].
  inversion Hall as [|? ? [Hs [He Ht]] Hus]; subst.
  cbn [map flat_map]. rewrite written_cons.
  assert (Hshape :
    utterance_cue u +:+ nl +:+ written (map utterance_cue us) =
    PyStr.str_int (index u) +:+ nl +:+
    ((startTimestamp u +:+ " --> " +:+ endTimestamp u) +:+ nl +:+
     (text u +:+ nl +:+ ("" +:+ nl +:+ written (map utterance_cue us))))).
  { unfold utterance_cue, cue. rewrite !append_assoc. reflexivity. }
  rewrite Hshape.
  rewrite split_line by (apply str_int_lacks; reflexivity).
  rewrite split_line by (rewrite !lacks_app, Hs, He; reflexivity).
  rewrite split_line by exact Ht.
  rewrite split_line by reflexivity.
  rewrite (IH Hus). reflexivity.
Qed.

(** The file holds the lines of the blocks, each ended by a line break. *)
Lemma written_blocks (us : list Utterance) :
  written (map utterance_cue us) = written (flat_map srt_block us)
  /\ written (map utterance_cue us) =
       fold_right
         (fun u rest =>
            PyStr.str_int (index u) +:+ nl +:+
            startTimestamp u +:+ " --> " +:+ endTimestamp u +:+ nl +:+
            text u +:+ nl +:+
            nl +:+ rest)
         "" us.
Proof.
  induction us as [|u us [IH1 IH2]]; [split; reflexivity|].
  cbn [map flat_map fold_right]. unfold srt_block at 1. cbn [app].
  rewrite !written_cons, <- IH1. rewrite <- IH2.
  unfold utterance_cue, cue. rewrite !append_assoc. split; reflexivity.
Qed.

(** C9.  For every sequence of utterances, [_save_srt] writes their cues,
    in their order, to the file named after the video (its base name less
    four characters, then [.srt]) in the save directory, touches no other
    file, and returns that path.  What the file holds is, for each
    utterance in turn, four lines each ended by a line break: its index,
    [start --> end], its text, and an empty line.  The bytes stored are
    those of the UTF-8 encoding, whatever the platform's own encoding.
    (When no timestamp and no text holds a line break of its own, cutting
    the file at the line breaks gives these lines back.) *)
Theorem save_srt_blocks (env : Env) (self : ProcessVideo) (us : list Utterance)
    (w : World) :
  let srt := PosixPath.join (video_dir self)
               (PyStr.drop_last4 (PosixPath.basename (video self)) +:+ ".srt") in
  exists w',
    _save_srt env self (map utterance_cue us) w = (Returns srt, w')
    /\ files w' !! srt = Some (written (map utterance_cue us))
    /\ written (map utterance_cue us) = written (flat_map srt_block us)
    /\ written (map utterance_cue us) =
         fold_right
           (fun u rest =>
              PyStr.str_int (index u) +:+ nl +:+
              startTimestamp u +:+ " --> " +:+ endTimestamp u +:+ nl +:+
              text u +:+ nl +:+
              nl +:+ rest)
           "" us
    /\ (forall u, srt_block u =
          [PyStr.str_int (index u);
           startTimestamp u +:+ " --> " +:+ endTimestamp u; text u; ""])
    /\ encode env utf_8 (written (map utterance_cue us)) =
         written (map utterance_cue us)
    /\ (forall p, p <> srt -> files w' !! p = files w !! p)
    /\ invoked w' = invoked w
    /\ (Forall one_line us ->
        PyStr.split PyStr.newline (written (map utterance_cue us)) =
          flat_map srt_block us ++ [""]).
Proof.
  intros srt. eexists. split; [apply _save_srt_eq|].
  cbn [files invoked]. fold (base_name self). fold srt.
  split; [apply lookup_insert_eq|].
  split; [apply written_blocks|]. split; [apply written_blocks|].
  split; [reflexivity|]. split; [reflexivity|].
  split; [intros p Hp; apply lookup_insert_ne; intros Heq; apply Hp; now symmetry|].
  split; [reflexivity | apply written_lines].
Qed.

Lemma save_srt_blocks_witness :
  let us := [ {| index := 1; startTimestamp := "00:00:00,500";
                 endTimestamp := "00:00:00,900"; text := "bonjour" |};
              {| index := 2; startTimestamp := "00:00:02,000";
                 endTimestamp := "00:00:03,000"; text := "tout monde" |} ] in
  PyStr.split PyStr.newline (written (map utterance_cue us)) =
    ["1"; "00:00:00,500 --> 00:00:00,900"; "bonjour"; "";
     "2"; "00:00:02,000 --> 00:00:03,000"; "tout monde"; ""; ""].
Proof.
  intros us.
  destruct (save_srt_blocks (Scripted.env Scripted.transcoder_ok [])
              {| video := "/v/talk.mp4"; model := default_model;
                 confidence := 0.6%float; video_dir := "/out"; srt_path := None |}
              us (Scripted.world []))
    as [w' [_ [_ [_ [_ [_ [_ [_ [_ Hlines]]]]]]]]].
  apply Hlines. repeat constructor.
Defined.

(** A text with a line break of its own: its block runs over five lines,
    and the file still holds the four pieces, each ended by a line
    break. *)
Example block_with_line_break :
  let u := {| index := 1; startTimestamp := "00:00:00,500";
              endTimestamp := "00:00:00,900"; text := "bon" +:+ nl +:+ "jour" |} in
  written [utterance_cue u] =
    "1" +:+ nl +:+ "00:00:00,500 --> 00:00:00,900" +:+ nl +:+
    ("bon" +:+ nl +:+ "jour") +:+ nl +:+ nl
  /\ PyStr.split PyStr.newline (written [utterance_cue u]) =
       ["1"; "00:00:00,500 --> 00:00:00,900"; "bon"; "jour"; ""; ""].
Proof. split; reflexivity. Qed.

(** ** Burning *)

Lemma init_present (video save_dir model : string) (srt_path : option string)
    (w : World) :
  is_Some (files w !! video) ->
  __init__ video srt_path save_dir model w =
    (Returns {| video := video; model := model; confidence := 0.6%float;
                video_dir := save_dir; srt_path := srt_path |}, w).
Proof.
  intros H. unfold __init__, _video_exits, bind, os_path_exists, raise, ret.
  rewrite bool_decide_eq_true_2 by exact H. reflexivity.
Qed.

Lemma burn_subtitles_failed (env : Env) (self : ProcessVideo) (w : World) :
  fst (ffmpeg_run env (burn_command self) (files w)) = true ->
  burn_subtitles env self w =
    (Raises FfmpegError,
     {| files := snd (ffmpeg_run env (burn_command self) (files w));
        invoked := invoked w ++ [Ffmpeg (burn_command self)] |}).
Proof.
  intros H. unfold burn_subtitles, bind. rewrite run_ffmpeg_eq, H. reflexivity.
Qed.

Lemma burn_subtitles_done (env : Env) (self : ProcessVideo) (w : World) :
  fst (ffmpeg_run env (burn_command self) (files w)) = false ->
  burn_subtitles env self w =
    (Returns tt,
     {| files :=
          delete (PosixPath.join (video_dir self) (base_name self +:+ ".wav"))
            (delete (PosixPath.join (video_dir self) (base_name self +:+ ".srt"))
               (snd (ffmpeg_run env (burn_command self) (files w))));
        invoked := invoked w ++ [Ffmpeg (burn_command self)] |}).
Proof.
  intros H. unfold burn_subtitles, bind. rewrite run_ffmpeg_eq, H.
  rewrite _cleanup_eq. reflexivity.
Qed.

(** After a successful burn the subtitle file is still where the
    transcoder left it, unless it happens to lie below the output path. *)
Lemma burn_done_keeps_srt (env : Env) (self : PreviewWindow)
    (output_path c : string) (w : World) :
  let job := {| video := pw_video_path self; model := default_model;
                confidence := 0.6%float; video_dir := output_path;
                srt_path := Some (pw_srt_path self) |} in
  is_Some (files w !! pw_video_path self) ->
  fst (ffmpeg_run env (burn_command job) (files w)) = false ->
  snd (ffmpeg_run env (burn_command job) (files w)) !! pw_srt_path self = Some c ->
  pw_srt_path self <> PosixPath.join output_path (base_name job +:+ ".srt") ->
  pw_srt_path self <> PosixPath.join output_path (base_name job +:+ ".wav") ->
  fst (run_burning env self output_path w) =
    Returns (burn_finished (Some output_path) None)
  /\ files (snd (run_burning env self output_path w)) !! pw_srt_path self = Some c.
Proof.
  intros job Hvideo Hok Hsrt Hne1 Hne2.
  unfold run_burning, try_except, bind.
  rewrite (init_present _ _ _ _ w Hvideo). fold job.
  rewrite (burn_subtitles_done env job w Hok). cbn [fst snd files ret].
  split; [reflexivity|].
  cbn [video_dir job].
  rewrite lookup_delete_ne by (intros Heq; apply Hne2; now symmetry).
  rewrite lookup_delete_ne by (intros Heq; apply Hne1; now symmetry).
  exact Hsrt.
Qed.

(** C3, as the code has it.  When the transcoder raises, [burn_subtitles]
    raises in turn without having cleaned up: the files are those that the
    transcoder left, so that the subtitle file is still there if the
    transcoder did not remove it, and an output file is there only if the
    transcoder wrote one.  The background run reports the failure, and the
    handler of the report then removes the subtitle file. *)
Theorem burn_failure_then_report (env : Env) (self : PreviewWindow)
    (output_path : string) (w : World) :
  let job := {| video := pw_video_path self; model := default_model;
                confidence := 0.6%float; video_dir := output_path;
                srt_path := Some (pw_srt_path self) |} in
  let left := snd (ffmpeg_run env (burn_command job) (files w)) in
  let w1 := {| files := left;
               invoked := invoked w ++ [Ffmpeg (burn_command job)] |} in
  is_Some (files w !! pw_video_path self) ->
  fst (ffmpeg_run env (burn_command job) (files w)) = true ->
  burn_subtitles env job w = (Raises FfmpegError, w1)
  /\ run_burning env self output_path w =
       (Returns (burn_finished None
                   (Some "ffmpeg error (see stderr output for detail)")), w1)
  /\ (forall c, left !! pw_srt_path self = Some c ->
        files w1 !! pw_srt_path self = Some c
        /\ on_burn_finished self None
             (Some "ffmpeg error (see stderr output for detail)") w1 =
             (Returns (critical "ffmpeg error (see stderr output for detail)"),
              {| files := delete (pw_srt_path self) left;
                 invoked := invoked w1 |})).
Proof.
  intros job left w1 Hvideo Hfail.
  assert (Hburn : burn_subtitles env job w = (Raises FfmpegError, w1))
    by now apply burn_subtitles_failed.
  split; [exact Hburn|]. split.
  - unfold run_burning, try_except, bind.
    rewrite (init_present _ _ _ _ w Hvideo). fold job. rewrite Hburn. reflexivity.
  - intros c Hc. split; [exact Hc|].
    unfold on_burn_finished, bind. rewrite (os_remove_present _ c) by exact Hc.
    reflexivity.
Qed.

Lemma burn_failure_then_report_witness :
  run_burning (Scripted.env Scripted.transcoder_failing [])
    {| pw_video_path := "/v/talk.mp4"; pw_srt_path := "/out/talk.srt";
       pw_save_dir := "/out" |}
    "/out/talk_subtitled.mp4"
    (Scripted.world [("/v/talk.mp4", "video"); ("/out/talk.srt", "1")])
  = (Returns (burn_finished None
                (Some "ffmpeg error (see stderr output for detail)")),
     {| files := files (Scripted.world
                          [("/v/talk.mp4", "video"); ("/out/talk.srt", "1")]);
        invoked :=
          [Ffmpeg (burn_command
                     {| video := "/v/talk.mp4"; model := default_model;
                        confidence := 0.6%float;
                        video_dir := "/out/talk_subtitled.mp4";
                        srt_path := Some "/out/talk.srt" |})] |}).
Proof.
  refine (proj1 (proj2 (burn_failure_then_report
            (Scripted.env Scripted.transcoder_failing [])
            {| pw_video_path := "/v/talk.mp4"; pw_srt_path := "/out/talk.srt";
               pw_save_dir := "/out" |}
            "/out/talk_subtitled.mp4"
            (Scripted.world [("/v/talk.mp4", "video"); ("/out/talk.srt", "1")])
            _ eq_refl))).
  vm_compute. eexists. reflexivity.
Defined.

(** C3 as it is worded fails: the transcoder fails and leaves every file as
    it is, and once the failure has been reported the subtitle file is
    gone. *)
Lemma burn_failure_removes_srt :
  let w := Scripted.world [("/v/talk.mp4", "video"); ("/out/talk.srt", "1")] in
  let run :=
    start_burning (Scripted.env Scripted.transcoder_failing [])
      {| pw_video_path := "/v/talk.mp4"; pw_srt_path := "/out/talk.srt";
         pw_save_dir := "/out" |} "1" w in
  files w !! "/out/talk.srt" = Some "1"
  /\ fst run = Returns (critical "ffmpeg error (see stderr output for detail)")
  /\ files (snd run) !! "/out/talk.srt" = None
  /\ files (snd run) !! "/v/talk.mp4" = Some "video".
Proof. vm_compute. repeat split. Qed.

(** C4, on a run.  The video [/v/talk.mp4] is processed into [/out]: the
    transcription leaves [/out/talk.srt].  The burn job is then built with
    the output path [/out/talk_subtitled.mp4] in the place of the save
    directory, so that its [_cleanup] looks for the working files below
    that path, where nothing exists: after the successful burn the output
    is there and the subtitle file is there too, as would be a [.wav] left
    in [/out].  The subtitle file goes only when the completion handler
    removes it. *)
Theorem burn_cleanup_misses_working_files :
  let env := Scripted.env Scripted.transcoder_ok Scripted.three_groups in
  let processed :=
    run_processing env "/v/talk.mp4" "/out"
      (Scripted.world [("/v/talk.mp4", "video")]) in
  let pw := on_processing_finished "/v/talk.mp4" "/out" "/out/talk.srt" in
  let job := {| video := "/v/talk.mp4"; model := default_model;
                confidence := 0.6%float; video_dir := output_path_of pw;
                srt_path := Some "/out/talk.srt" |} in
  let burnt := run_burning env pw (output_path_of pw) (snd processed) in
  let handled := on_burn_finished pw (Some (output_path_of pw)) None (snd burnt) in
  fst processed = Returns (finished "/out/talk.srt")
  /\ files (snd processed) !! "/out/talk.wav" = None
  /\ output_path_of pw = "/out/talk_subtitled.mp4"
  /\ PosixPath.join (video_dir job) (base_name job +:+ ".srt") =
       "/out/talk_subtitled.mp4/talk.srt"
  /\ PosixPath.join (video_dir job) (base_name job +:+ ".wav") =
       "/out/talk_subtitled.mp4/talk.wav"
  /\ fst burnt = Returns (burn_finished (Some "/out/talk_subtitled.mp4") None)
  /\ files (snd burnt) !! "/out/talk_subtitled.mp4" = Some "media"
  /\ files (snd burnt) !! "/out/talk.srt" =
       Some ("1" +:+ nl +:+ "00:00:00,500 --> 00:00:00,900" +:+ nl +:+ "bonjour"
             +:+ nl +:+ nl)
  /\ files (snd (burn_subtitles env job
                   (Scripted.world [("/v/talk.mp4", "video"); ("/out/talk.srt", "1");
                                    ("/out/talk.wav", "RIFF")])))
       !! "/out/talk.wav" = Some "RIFF"
  /\ files (snd handled) !! "/out/talk.srt" = None.
Proof. vm_compute. repeat split. Qed.

(** ** The timestamp *)

Section Rationals.

Local Open Scope Q_scope.

Lemma qmod_bounds (q m : Q) : 0 < m -> 0 <= PyFloat.qmod q m /\ PyFloat.qmod q m < m.
Proof.
  intros Hm. unfold PyFloat.qmod.
  pose proof (Qfloor_le (q / m)) as Hlo.
  pose proof (Qlt_floor (q / m)) as Hhi.
  rewrite inject_Z_plus in Hhi. change (inject_Z 1) with 1 in Hhi.
  assert (Hq : q / m * m == q) by (field; lra).
  set (f := inject_Z (Qfloor (q / m))) in *.
  split.
  - assert (f * m <= q / m * m) by (apply Qmult_le_compat_r; lra). lra.
  - assert (q / m * m < (f + 1) * m) by (apply Qmult_lt_compat_r; lra). lra.
Qed.

(** What [q % m] is taken from: a whole number of times [m]. *)
Lemma qmod_decompose (q m : Q) :
  q == inject_Z (Qfloor (q / m)) * m + PyFloat.qmod q m.
Proof. unfold PyFloat.qmod. ring. Qed.

Lemma Qfloor_range (x : Q) (b : Z) :
  0 <= x -> x < inject_Z b -> (0 <= Qfloor x < b)%Z.
Proof.
  intros Hlo Hhi. split.
  - change 0%Z with (Qfloor 0). now apply Qfloor_resp_le.
  - rewrite Zlt_Qlt. pose proof (Qfloor_le x). lra.
Qed.

Lemma round_half_even_near (x : Q) :
  inject_Z (PyFloat.round_half_even x) - x <= 1 # 2
  /\ x - inject_Z (PyFloat.round_half_even x) <= 1 # 2.
Proof.
  unfold PyFloat.round_half_even.
  pose proof (Qfloor_le x) as Hlo. pose proof (Qlt_floor x) as Hhi.
  rewrite inject_Z_plus in Hhi. change (inject_Z 1) with 1 in Hhi.
  destruct (Qcompare (x - inject_Z (Qfloor x)) (1 # 2)) eqn:Hc.
  - apply Qeq_alt in Hc.
    destruct (Z.even (Qfloor x));
      rewrite ?inject_Z_plus; change (inject_Z 1) with 1; split; lra.
  - apply Qlt_alt in Hc. split; lra.
  - apply Qgt_alt in Hc. rewrite inject_Z_plus. change (inject_Z 1) with 1.
    split; lra.
Qed.

Lemma round_half_even_nonneg (x : Q) : 0 <= x -> (0 <= PyFloat.round_half_even x)%Z.
Proof.
  intros Hx. unfold PyFloat.round_half_even.
  assert (Hf : (0 <= Qfloor x)%Z)
    by (change 0%Z with (Qfloor 0); now apply Qfloor_resp_le).
  destruct (Qcompare _ _); [destruct (Z.even _)| |]; lia.
Qed.

End Rationals.

Section Formatting.

Import PyStr.

Lemma replace_app (a b : ascii) (s t : string) :
  replace a b (s +:+ t) = replace a b s +:+ replace a b t.
Proof.
  induction s as [|x s IH]; [reflexivity|].
  rewrite append_cons. simpl. now rewrite IH.
Qed.

Lemma replace_lacks (a b : ascii) (s : string) :
  lacks a s = true -> replace a b s = s.
Proof.
  induction s as [|x s IH]; simpl; intros H; [reflexivity|].
  apply andb_prop in H as [Hx Hs]. apply negb_true_iff in Hx.
  now rewrite Hx, (IH Hs).
Qed.

Lemma zeros_digits (n : nat) : all_chars is_digit (zeros n) = true.
Proof. induction n as [|n IH]; simpl; [reflexivity | exact IH]. Qed.

Lemma zero_pad_digits (w : nat) (s : string) :
  all_chars is_digit s = true -> all_chars is_digit (zero_pad w s) = true.
Proof.
  intros Hs. unfold zero_pad. now rewrite all_chars_app, zeros_digits, Hs.
Qed.

Lemma replace_digits (a b : ascii) (s : string) :
  is_digit a = false -> all_chars is_digit s = true -> replace a b s = s.
Proof. intros Ha Hs. apply replace_lacks. now apply digits_lack. Qed.

(** Padding a text that ends with [k] characters of its own. *)
Lemma zero_pad_app (w k : nat) (a t : string) :
  String.length t = k -> zero_pad (w + k) (a +:+ t) = zero_pad w a +:+ t.
Proof.
  intros Ht. unfold zero_pad. rewrite length_append, Ht, append_assoc.
  now replace (w + k - (String.length a + k))%nat with (w - String.length a)%nat
    by lia.
Qed.

Lemma length_zeros (n : nat) : String.length (zeros n) = n.
Proof. induction n as [|n IH]; simpl; [reflexivity | now rewrite IH]. Qed.

Lemma length_zero_pad (w : nat) (s : string) :
  (w <= String.length (zero_pad w s))%nat.
Proof. unfold zero_pad. rewrite length_append, length_zeros. lia. Qed.

(** A property checked on every number below [k]. *)
Lemma below_checked (k : nat) (P : Z -> bool) :
  forallb P (map Z.of_nat (seq 0 k)) = true ->
  forall m, 0 <= m < Z.of_nat k -> P m = true.
Proof.
  intros Hall m Hm. rewrite forallb_forall in Hall. apply Hall.
  apply in_map_iff. exists (Z.to_nat m). split; [lia|].
  apply in_seq. lia.
Qed.

Lemma format_02d_two_digits (m : Z) :
  0 <= m < 100 -> format_02d m = two_digits m.
Proof.
  intros Hm. apply String.eqb_eq.
  apply (below_checked 100 (fun m => String.eqb (format_02d m) (two_digits m)));
    [vm_compute; reflexivity | exact Hm].
Qed.

Lemma zero_pad_three_digits (m : Z) :
  0 <= m < 1000 -> zero_pad 3 (str_int m) = three_digits m.
Proof.
  intros Hm. apply String.eqb_eq.
  apply (below_checked 1000
           (fun m => String.eqb (zero_pad 3 (str_int m)) (three_digits m)));
    [vm_compute; reflexivity | exact Hm].
Qed.

Lemma length_three_digits (m : Z) : String.length (three_digits m) = 3%nat.
Proof. reflexivity. Qed.

(** [f"{x:06.3f}"] once the rounded number of milliseconds is known to be
    below a minute. *)
Lemma format_06_3f_fields (x : Q) :
  let n := PyFloat.round_half_even (x * 1000) in
  0 <= n < 60000 ->
  PyFloat.format_06_3f x = two_digits (n / 1000) +:+ "." +:+ three_digits (n mod 1000).
Proof.
  intros n Hn. unfold PyFloat.format_06_3f. fold n.
  assert (Hs : 0 <= n / 1000 < 100)
    by (split; [apply Z.div_pos; lia | apply Z.div_lt_upper_bound; lia]).
  assert (Hm : 0 <= n mod 1000 < 1000) by (apply Z.mod_pos_bound; lia).
  rewrite (zero_pad_three_digits _ Hm).
  change 6%nat with (2 + 4)%nat.
  rewrite (zero_pad_app 2 4) by reflexivity.
  fold (format_02d (n / 1000)). now rewrite (format_02d_two_digits _ Hs).
Qed.

Lemma two_digits_digits (m : Z) :
  0 <= m < 100 -> all_chars is_digit (two_digits m) = true.
Proof.
  intros Hm. rewrite <- format_02d_two_digits by exact Hm.
  apply zero_pad_digits, str_int_digits.
Qed.

Lemma three_digits_digits (m : Z) :
  0 <= m < 1000 -> all_chars is_digit (three_digits m) = true.
Proof.
  intros Hm. rewrite <- zero_pad_three_digits by exact Hm.
  apply zero_pad_digits, str_int_digits.
Qed.

End Formatting.

Section Timestamp.

Import PyStr.
Local Open Scope Q_scope.

Lemma Qfloor_unique (x : Q) (k : Z) :
  inject_Z k <= x -> x < inject_Z k + 1 -> Qfloor x = k.
Proof.
  intros Hlo Hhi.
  assert (H1 : (k <= Qfloor x)%Z)
    by (rewrite <- (Qfloor_Z k); now apply Qfloor_resp_le).
  assert (H2 : (Qfloor x < k + 1)%Z).
  { rewrite Zlt_Qlt, inject_Z_plus. change (inject_Z 1) with 1.
    pose proof (Qfloor_le x). lra. }
  lia.
Qed.

(** Hours, minutes and the seconds within the minute add up to the input. *)
Lemma fields_decompose (q : Q) :
  q == inject_Z (3600 * Qfloor (q / 3600)
                 + 60 * Qfloor (PyFloat.qmod q 3600 / 60))
       + PyFloat.qmod q 60.
Proof.
  pose proof (qmod_decompose q 3600) as Hq.
  destruct (qmod_bounds (PyFloat.qmod q 3600) 60 ltac:(lra)) as [Hlo Hhi].
  pose proof (qmod_decompose (PyFloat.qmod q 3600) 60) as Hr.
  set (h := Qfloor (q / 3600)) in *.
  set (r := PyFloat.qmod q 3600) in *.
  set (m := Qfloor (r / 60)) in *.
  assert (Hfloor : Qfloor (q / 60) = (60 * h + m)%Z).
  { apply Qfloor_unique; rewrite inject_Z_plus, inject_Z_mult;
      change (inject_Z 60) with 60.
    - assert (60 * (60 * inject_Z h + inject_Z m) <= q) by lra.
      apply Qle_shift_div_l; lra.
    - assert (q < 60 * (60 * inject_Z h + inject_Z m + 1)) by lra.
      apply Qlt_shift_div_r; lra. }
  unfold PyFloat.qmod at 1. rewrite Hfloor.
  rewrite !inject_Z_plus, !inject_Z_mult.
  change (inject_Z 60) with 60. change (inject_Z 3600) with 3600. ring.
Qed.

Lemma in_exact_range_true (q : Q) :
  0 <= q -> q < inject_Z (2 ^ 53) -> PyFloat.in_exact_range q = true.
Proof.
  intros Hlo Hhi. unfold PyFloat.in_exact_range.
  apply andb_true_intro. split; [now apply Qle_bool_iff|].
  apply negb_true_iff. destruct (Qle_bool (inject_Z (2 ^ 53)) q) eqn:Hb;
    [|reflexivity].
  apply Qle_bool_iff in Hb. lra.
Qed.

(** The text of a timestamp whose seconds do not round up to the minute. *)
Lemma format_timestamp_exact_fields (q : Q) :
  let hours := Qfloor (q / 3600) in
  let minutes := Qfloor (PyFloat.qmod q 3600 / 60) in
  let millis := PyFloat.round_half_even (PyFloat.qmod q 60 * 1000) in
  0 <= q ->
  (millis < 60000)%Z ->
  format_timestamp_exact q =
    format_02d hours +:+ ":" +:+ two_digits minutes +:+ ":" +:+
    two_digits (millis / 1000) +:+ "," +:+ three_digits (millis mod 1000)
  /\ (0 <= hours)%Z /\ (0 <= minutes < 60)%Z /\ (0 <= millis < 60000)%Z.
Proof.
  intros hours minutes millis Hq Hms.
  destruct (qmod_bounds q 3600 ltac:(lra)) as [Hr0 Hr1].
  destruct (qmod_bounds q 60 ltac:(lra)) as [Hs0 Hs1].
  assert (Hh : (0 <= hours)%Z).
  { change 0%Z with (Qfloor 0). apply Qfloor_resp_le.
    apply Qle_shift_div_l; lra. }
  assert (Hm : (0 <= minutes < 60)%Z).
  { apply Qfloor_range.
    - apply Qle_shift_div_l; lra.
    - apply Qlt_shift_div_r; [lra|]. change (inject_Z 60) with 60. lra. }
  assert (Hn : (0 <= millis < 60000)%Z).
  { split; [|exact Hms]. apply round_half_even_nonneg.
    apply Qmult_le_0_compat; lra. }
  split; [|tauto].
  unfold format_timestamp_exact. fold hours minutes.
  rewrite (format_06_3f_fields _ Hn). fold millis.
  rewrite (format_02d_two_digits minutes) by lia.
  assert (Hs : (0 <= millis / 1000 < 100)%Z)
    by (split; [apply Z.div_pos; lia | apply Z.div_lt_upper_bound; lia]).
  assert (Hf : (0 <= millis mod 1000 < 1000)%Z) by (apply Z.mod_pos_bound; lia).
  rewrite !replace_app.
  rewrite (replace_digits _ _ (format_02d hours))
    by (reflexivity || apply zero_pad_digits, str_int_digits).
  rewrite (replace_digits _ _ (two_digits minutes))
    by (reflexivity || apply two_digits_digits; lia).
  rewrite (replace_digits _ _ (two_digits (millis / 1000)))
    by (reflexivity || now apply two_digits_digits).
  rewrite (replace_digits _ _ (three_digits (millis mod 1000)))
    by (reflexivity || now apply three_digits_digits).
  reflexivity.
Qed.

End Timestamp.

Example format_zero : _format_timestamp 0%float = Some "00:00:00,000".
Proof. vm_compute. reflexivity. Qed.

Example format_3661 : _format_timestamp 3661.1234%float = Some "01:01:01,123".
Proof. vm_compute. reflexivity. Qed.

Example format_tie_to_even : _format_timestamp 0.0625%float = Some "00:00:00,062".
Proof. vm_compute. reflexivity. Qed.

Example format_hundred_hours :
  _format_timestamp 360000.5%float = Some "100:00:00,500".
Proof. vm_compute. reflexivity. Qed.

Example format_rounds_to_sixty :
  _format_timestamp 59.9996%float = Some "00:00:60,000".
Proof. vm_compute. reflexivity. Qed.

(** C2, as the code has it.  The formatter gives ["00:00:00,000"] at 0 and
    ["01:01:01,123"] at 3661.1234.  For every float [seconds] of value [q]
    with [0 <= q < 2^53], with [hours = floor(q / 3600)], [minutes =
    floor((q mod 3600) / 60)] and [millis] the number of milliseconds of
    [q mod 60] rounded to the nearest integer (a tie to the even one), and
    as long as [millis] stays below a minute, the result is the hours on at
    least two digits, a colon, the minutes on two digits, a colon, the
    seconds [millis / 1000] on two digits, a comma, and [millis mod 1000] on
    three digits.  The three fields add up to the input, and [millis] is
    within half a millisecond of [q mod 60]: the field is rounded, not cut
    off. *)
Theorem format_timestamp_rounds (seconds : float) (q : Q) :
  let hours := Qfloor (q / 3600) in
  let minutes := Qfloor (PyFloat.qmod q 3600 / 60) in
  let millis := PyFloat.round_half_even (PyFloat.qmod q 60 * 1000) in
  PyFloat.exact_value seconds = Some q ->
  (0 <= q)%Q ->
  (q < inject_Z (2 ^ 53))%Q ->
  millis < 60000 ->
  _format_timestamp seconds =
    Some (PyStr.format_02d hours +:+ ":" +:+ PyStr.two_digits minutes +:+ ":" +:+
          PyStr.two_digits (millis / 1000) +:+ "," +:+
          PyStr.three_digits (millis mod 1000))
  /\ (0 <= hours /\ 0 <= minutes < 60
      /\ 0 <= millis / 1000 < 60 /\ 0 <= millis mod 1000 < 1000)
  /\ (q == inject_Z (3600 * hours + 60 * minutes) + PyFloat.qmod q 60)%Q
  /\ (inject_Z millis - PyFloat.qmod q 60 * 1000 <= 1 # 2
      /\ PyFloat.qmod q 60 * 1000 - inject_Z millis <= 1 # 2)%Q
  /\ (PyStr.all_chars PyStr.is_digit (PyStr.format_02d hours) = true
      /\ (2 <= String.length (PyStr.format_02d hours))%nat
      /\ (hours < 100 -> PyStr.format_02d hours = PyStr.two_digits hours))
  /\ _format_timestamp 0%float = Some "00:00:00,000"
  /\ _format_timestamp 3661.1234%float = Some "01:01:01,123".
Proof.
  intros hours minutes millis Hval Hlo Hhi Hms.
  destruct (format_timestamp_exact_fields q Hlo Hms)
    as [Htext [Hh [Hm Hn]]].
  fold hours minutes millis in Htext, Hh, Hm, Hn.
  split; [|split; [|split; [|split; [|split; [|split]]]]].
  - unfold _format_timestamp.
    rewrite Hval, (in_exact_range_true q Hlo Hhi), Htext. reflexivity.
  - repeat split; try lia.
    + apply Z.div_pos; lia.
    + apply Z.div_lt_upper_bound; lia.
    + apply Z.mod_pos_bound; lia.
    + apply Z.mod_pos_bound; lia.
  - apply fields_decompose.
  - apply round_half_even_near.
  - split; [apply zero_pad_digits, str_int_digits|].
    split; [apply length_zero_pad|].
    intros H100. apply format_02d_two_digits. lia.
  - exact format_zero.
  - exact format_3661.
Qed.

Lemma format_timestamp_rounds_witness :
  _format_timestamp 3725.0625%float = Some "01:02:05,062".
Proof.
  refine (proj1 (format_timestamp_rounds 3725.0625%float
                   (8191499065884672 # 2199023255552)
                   eq_refl _ eq_refl eq_refl)).
  unfold Qle. cbn. lia.
Defined.

(** C2 as it is worded fails at 1.9996 seconds: the milliseconds of the
    value, cut off, are 1999, and the specification's formatter gives
    ["00:00:01,999"] there, whereas the code gives ["00:00:02,000"]. *)
Lemma format_rounds_where_spec_truncates :
  _format_timestamp 1.9996%float = Some "00:00:02,000"
  /\ match PyFloat.exact_value 1.9996%float with
     | Some q =>
         Qfloor (PyFloat.qmod q 60 * 1000) = 1999
         /\ spec_format_truncated q = "00:00:01,999"
     | None => False
     end.
Proof. vm_compute. repeat split. Qed.

(** * Further properties of the pipeline *)

(** ** Transcription as a whole *)

Lemma append_inj_l (a x y : string) : a +:+ x = a +:+ y -> x = y.
Proof.
  induction a as [|c a IH]; [now rewrite !append_nil|].
  rewrite !append_cons. intros H. injection H as H. now apply IH.
Qed.

(** The working paths of a job are two different paths. *)
Lemma wav_is_not_srt (d b : string) :
  PosixPath.join d (b +:+ ".wav") <> PosixPath.join d (b +:+ ".srt").
Proof.
  assert (Hext : forall p, p +:+ (b +:+ ".wav") <> p +:+ (b +:+ ".srt")).
  { intros p H. apply append_inj_l, append_inj_l in H. discriminate. }
  unfold PosixPath.join. destruct b as [|c b].
  - rewrite !append_nil. cbn [PosixPath.is_slash Ascii.eqb].
    change (Ascii.eqb "." "/") with false. cbv iota.
    destruct (_ || _); intros H.
    + apply append_inj_l in H. discriminate.
    + apply append_inj_l, append_inj_l in H. discriminate.
  - rewrite !append_cons. destruct (PosixPath.is_slash c).
    + rewrite <- !append_cons. apply (Hext "").
    + rewrite <- !append_cons. destruct (_ || _).
      * apply Hext.
      * intros H. apply append_inj_l in H. revert H. apply (Hext "/").
Qed.

Lemma retrieve_text_run (env : Env) (self : ProcessVideo) (w : World)
    (rec : rec_state env) (content : string) (wf : list frame) :
  vosk_open env ("models/" +:+ model self) = Some rec ->
  files w !! PosixPath.join (video_dir self) (base_name self +:+ ".wav")
    = Some content ->
  wave_frames env content = Some wf ->
  retrieve_text env self w =
    match transcribe env (confidence self) chunk_frames wf
            {| recognizer := rec; subtitles := []; subtitles_index := 1 |} with
    | Returns st =>
        (Returns (PosixPath.join (video_dir self) (base_name self +:+ ".srt")),
         {| files :=
              <[PosixPath.join (video_dir self) (base_name self +:+ ".srt")
                := written (subtitles st)]>
                (delete (PosixPath.join (video_dir self) (base_name self +:+ ".wav"))
                   (files w));
            invoked := invoked w ++ [VoskModel ("models/" +:+ model self)] |})
    | Raises e =>
        (Raises e,
         {| files := files w;
            invoked := invoked w ++ [VoskModel ("models/" +:+ model self)] |})
    end.
Proof.
  intros Hrec Hwav Hframes. unfold retrieve_text, bind, log. rewrite Hrec.
  unfold read_text. cbn [files invoked]. rewrite Hwav, Hframes.
  destruct (transcribe _ _ _ _ _) as [st|e]; [|reflexivity].
  unfold os_remove. cbn [files invoked]. rewrite Hwav. reflexivity.
Qed.

(** X1.  When the model opens, the WAV file of the job is there and is
    accepted, and the times of the finalized groups can be formatted,
    [retrieve_text] returns the path of the subtitle file; the WAV file is
    gone, the subtitle file holds the cues of the groups that have a word,
    numbered from 1, each followed by a line break, no other file is
    changed, and the only external component brought in is the model. *)
Theorem retrieve_text_writes_cues (env : Env) (self : ProcessVideo) (w : World)
    (rec : rec_state env) (content : string) (wf : list frame) :
  let wav := PosixPath.join (video_dir self) (base_name self +:+ ".wav") in
  let srt := PosixPath.join (video_dir self) (base_name self +:+ ".srt") in
  let emitted := List.filter has_word (finalized env chunk_frames wf rec) in
  let cues :=
    imap (fun i ws => group_cue (confidence self) (Z.of_nat i + 1) ws) emitted in
  vosk_open env ("models/" +:+ model self) = Some rec ->
  files w !! wav = Some content ->
  wave_frames env content = Some wf ->
  Forall timed (finalized env chunk_frames wf rec) ->
  exists w',
    retrieve_text env self w = (Returns srt, w')
    /\ files w' !! wav = None
    /\ files w' !! srt = Some (written cues)
    /\ (forall p, p <> wav -> p <> srt -> files w' !! p = files w !! p)
    /\ invoked w' = invoked w ++ [VoskModel ("models/" +:+ model self)].
Proof.
  intros wav srt emitted cues Hrec Hwav Hframes Htimed.
  destruct (transcribe_emits env (confidence self) chunk_frames wf
              {| recognizer := rec; subtitles := []; subtitles_index := 1 |} Htimed)
    as [st [Hrun [Hsubs _]]].
  cbn [recognizer subtitles subtitles_index app] in Hsubs.
  rewrite (retrieve_text_run env self w rec content wf Hrec Hwav Hframes), Hrun.
  fold wav srt. eexists. split; [reflexivity|]. cbn [files invoked].
  assert (Hcues : subtitles st = cues).
  { rewrite Hsubs. apply imap_ext. intros i ws _. cbn. f_equal. lia. }
  rewrite Hcues. repeat split.
  - rewrite lookup_insert_ne by (intros H; symmetry in H; revert H; apply wav_is_not_srt).
    apply lookup_delete_eq.
  - apply lookup_insert_eq.
  - intros p Hp1 Hp2.
    rewrite lookup_insert_ne by congruence. now rewrite lookup_delete_ne by congruence.
Qed.

Lemma retrieve_text_writes_cues_witness :
  exists w',
    retrieve_text (Scripted.env Scripted.transcoder_ok Scripted.one_group)
      {| video := "/v/talk.mp4"; model := default_model; confidence := 0.6%float;
         video_dir := "/out"; srt_path := None |}
      (Scripted.world [("/v/talk.mp4", "video"); ("/out/talk.wav", "ab")])
    = (Returns "/out/talk.srt", w')
    /\ files w' !! "/out/talk.wav" = None.
Proof.
  destruct (retrieve_text_writes_cues
              (Scripted.env Scripted.transcoder_ok Scripted.one_group)
              {| video := "/v/talk.mp4"; model := default_model;
                 confidence := 0.6%float; video_dir := "/out"; srt_path := None |}
              (Scripted.world [("/v/talk.mp4", "video"); ("/out/talk.wav", "ab")])
              (Scripted.one_group, None) "ab"
              (default [] (Scripted.frames_of "ab"))
              eq_refl eq_refl eq_refl)
    as [w' [Hrun [Hwav _]]].
  - timed_groups.
  - exists w'. split; [exact Hrun | exact Hwav].
Defined.

Lemma retrieve_text_without_model (env : Env) (self : ProcessVideo) (w : World) :
  vosk_open env ("models/" +:+ model self) = None ->
  retrieve_text env self w =
    (Raises VoskError,
     {| files := files w;
        invoked := invoked w ++ [VoskModel ("models/" +:+ model self)] |}).
Proof.
  intros Hrec. unfold retrieve_text, bind, log, raise. now rewrite Hrec.
Qed.

Lemma retrieve_text_without_wav (env : Env) (self : ProcessVideo) (w : World)
    (rec : rec_state env) :
  vosk_open env ("models/" +:+ model self) = Some rec ->
  files w !! PosixPath.join (video_dir self) (base_name self +:+ ".wav") = None ->
  retrieve_text env self w =
    (Raises (FileNotFoundError 2 "No such file or directory"
               (PosixPath.join (video_dir self) (base_name self +:+ ".wav"))),
     {| files := files w;
        invoked := invoked w ++ [VoskModel ("models/" +:+ model self)] |}).
Proof.
  intros Hrec Hwav. unfold retrieve_text, bind, log. rewrite Hrec.
  unfold read_text. cbn [files invoked]. now rewrite Hwav.
Qed.

Lemma retrieve_text_rejected_wav (env : Env) (self : ProcessVideo) (w : World)
    (rec : rec_state env) (content : string) :
  vosk_open env ("models/" +:+ model self) = Some rec ->
  files w !! PosixPath.join (video_dir self) (base_name self +:+ ".wav")
    = Some content ->
  wave_frames env content = None ->
  retrieve_text env self w =
    (Raises WaveError,
     {| files := files w;
        invoked := invoked w ++ [VoskModel ("models/" +:+ model self)] |}).
Proof.
  intros Hrec Hwav Hframes. unfold retrieve_text, bind, log. rewrite Hrec.
  unfold read_text. cbn [files invoked]. rewrite Hwav, Hframes. reflexivity.
Qed.

(** X2.  The failures of [retrieve_text] ahead of its loop, in the order
    in which it meets them: the model comes first, and when it cannot be
    created nothing else is looked at; then the WAV file, which may be
    missing, or be there and be rejected.  In each of these cases the
    exception leaves every file as it was: the WAV file, if there is one,
    stays, and no subtitle file is written. *)
Theorem retrieve_text_early_failures (env : Env) (self : ProcessVideo) (w : World) :
  let wav := PosixPath.join (video_dir self) (base_name self +:+ ".wav") in
  let w1 := {| files := files w;
               invoked := invoked w ++ [VoskModel ("models/" +:+ model self)] |} in
  (vosk_open env ("models/" +:+ model self) = None ->
     retrieve_text env self w = (Raises VoskError, w1))
  /\ (forall rec, vosk_open env ("models/" +:+ model self) = Some rec ->
        files w !! wav = None ->
        retrieve_text env self w =
          (Raises (FileNotFoundError 2 "No such file or directory" wav), w1))
  /\ (forall rec content,
        vosk_open env ("models/" +:+ model self) = Some rec ->
        files w !! wav = Some content ->
        wave_frames env content = None ->
        retrieve_text env self w = (Raises WaveError, w1)
        /\ files w1 !! wav = Some content).
Proof.
  intros wav w1. split; [|split].
  - apply retrieve_text_without_model.
  - apply retrieve_text_without_wav.
  - intros rec content Hrec Hwav Hframes. split; [|exact Hwav].
    now apply (retrieve_text_rejected_wav env self w rec content).
Qed.

(** ** The background runs *)

Lemma retrieve_text_returned (env : Env) (self : ProcessVideo) (w w' : World)
    (p : string) :
  retrieve_text env self w = (Returns p, w') ->
  p = PosixPath.join (video_dir self) (base_name self +:+ ".srt")
  /\ is_Some (files w' !! p)
  /\ files w' !! PosixPath.join (video_dir self) (base_name self +:+ ".wav") = None
  /\ invoked w' = invoked w ++ [VoskModel ("models/" +:+ model self)].
Proof.
  unfold retrieve_text, bind, log.
  destruct (vosk_open env ("models/" +:+ model self)) as [rec|];
    [|intros H; discriminate H].
  unfold read_text. cbn [files invoked].
  destruct (files w !! _) as [content|] eqn:Hwav; [|intros H; discriminate H].
  destruct (wave_frames env content) as [wf|]; [|intros H; discriminate H].
  destruct (transcribe _ _ _ _ _) as [st|e']; [|intros H; discriminate H].
  unfold os_remove. cbn [files invoked]. rewrite Hwav.
  rewrite _save_srt_eq. cbn [files invoked]. intros H.
  injection H as <- <-. cbn [files invoked].
  split; [reflexivity|]. split; [rewrite lookup_insert_eq; eauto|].
  split; [|reflexivity].
  rewrite lookup_insert_ne by (intros H; symmetry in H; revert H; apply wav_is_not_srt).
  apply lookup_delete_eq.
Qed.

Lemma init_outcome (video save_dir model : string) (srt_path : option string)
    (w : World) :
  __init__ video srt_path save_dir model w =
    (match files w !! video with
     | Some _ => Returns {| video := video; model := model;
                            confidence := 0.6%float; video_dir := save_dir;
                            srt_path := srt_path |}
     | None => Raises (FileNotFoundError ENOENT strerror_ENOENT video)
     end, w).
Proof.
  unfold __init__, _video_exits, bind, os_path_exists, raise, ret.
  destruct (files w !! video).
  - rewrite bool_decide_eq_true_2 by eauto. reflexivity.
  - rewrite bool_decide_eq_false_2 by (intros [? ?]; discriminate). reflexivity.
Qed.

Lemma run_burning_signal (env : Env) (self : PreviewWindow) (output_path : string)
    (w : World) :
  exists o e w', run_burning env self output_path w = (Returns (burn_finished o e), w').
Proof.
  unfold run_burning, try_except, bind. rewrite init_outcome.
  destruct (files w !! pw_video_path self); [|unfold ret; eauto].
  destruct (burn_subtitles env _ w) as [[[]|e] w1]; unfold ret; eauto.
Qed.

(** X3.  Neither background run lets an exception out: whatever the
    environment does and whatever the files are, [run_processing] and
    [run_burning] return, with a signal. *)
Theorem background_runs_never_raise (env : Env) :
  (forall video_path save_dir w,
      exists sig, fst (run_processing env video_path save_dir w) = Returns sig)
  /\ (forall self output_path w,
        exists sig, fst (run_burning env self output_path w) = Returns sig).
Proof.
  split.
  - intros video_path save_dir w. unfold run_processing, try_except.
    destruct (bind _ _ w) as [[sig|e] w1]; unfold ret; cbn [fst]; eauto.
  - intros self output_path w.
    destruct (run_burning_signal env self output_path w) as [o [e [w' H]]].
    rewrite H. cbn [fst]. eauto.
Qed.

(** The three ways in which [run_processing] ends. *)
Lemma run_processing_cases (env : Env) (video_path save_dir : string) (w : World) :
  let job := {| video := video_path; model := default_model;
                confidence := 0.6%float; video_dir := save_dir;
                srt_path := None |} in
  let w1 := {| files := snd (ffmpeg_run env (extract_command job) (files w));
               invoked := invoked w ++ [Ffmpeg (extract_command job)] |} in
  run_processing env video_path save_dir w =
    match files w !! video_path with
    | None =>
        (Returns (error (str_exn (FileNotFoundError ENOENT strerror_ENOENT video_path))),
         w)
    | Some _ =>
        if fst (ffmpeg_run env (extract_command job) (files w))
        then (Returns (error (str_exn FfmpegError)), w1)
        else match retrieve_text env job w1 with
             | (Returns p, w2) => (Returns (finished p), w2)
             | (Raises e, w2) => (Returns (error (str_exn e)), w2)
             end
    end.
Proof.
  intros job w1. unfold run_processing, try_except, bind. rewrite init_outcome.
  destruct (files w !! video_path); [|reflexivity].
  rewrite extract_audio_eq. fold job. fold w1.
  destruct (fst (ffmpeg_run env (extract_command job) (files w))); [reflexivity|].
  destruct (retrieve_text env job w1) as [[p|e] w2]; reflexivity.
Qed.

(** X4.  When [run_processing] reports success, the video was there, the
    path it reports is the job's subtitle path in the save directory, a
    file exists at that path, no working audio file is left, and what was
    brought in is the transcoder, once, and then the model. *)
Theorem processing_finished_post (env : Env) (video_path save_dir p : string)
    (w w' : World) :
  let job := {| video := video_path; model := default_model;
                confidence := 0.6%float; video_dir := save_dir;
                srt_path := None |} in
  run_processing env video_path save_dir w = (Returns (finished p), w') ->
  is_Some (files w !! video_path)
  /\ p = PosixPath.join save_dir
           (PyStr.drop_last4 (PosixPath.basename video_path) +:+ ".srt")
  /\ is_Some (files w' !! p)
  /\ files w' !! PosixPath.join save_dir
                   (PyStr.drop_last4 (PosixPath.basename video_path) +:+ ".wav")
       = None
  /\ invoked w' =
       invoked w ++ [Ffmpeg (extract_command job);
                     VoskModel "models/vosk-model-fr-0.22"].
Proof.
  intros job. rewrite run_processing_cases. fold job.
  destruct (files w !! video_path) as [c|]; [|intros H; discriminate H].
  destruct (fst (ffmpeg_run env (extract_command job) (files w)));
    [intros H; discriminate H|].
  destruct (retrieve_text env job _) as [[p'|e] w2] eqn:Hrt;
    [|intros H; discriminate H].
  intros H. injection H as -> ->.
  apply retrieve_text_returned in Hrt as [Hp [Hsrt [Hwav Hinv]]].
  split; [eauto|]. split; [exact Hp|]. split; [exact Hsrt|].
  split; [exact Hwav|]. rewrite Hinv. cbn [invoked model job].
  now rewrite <- List.app_assoc.
Qed.

Lemma processing_finished_post_witness :
  is_Some (files (Scripted.world [("/v/talk.mp4", "video")]) !! "/v/talk.mp4")
  /\ "/out/talk.srt" =
       PosixPath.join "/out"
         (PyStr.drop_last4 (PosixPath.basename "/v/talk.mp4") +:+ ".srt").
Proof.
  pose proof (processing_finished_post
                (Scripted.env Scripted.transcoder_ok Scripted.one_group)
                "/v/talk.mp4" "/out" "/out/talk.srt"
                (Scripted.world [("/v/talk.mp4", "video")]) _ eq_refl)
    as [Hv [Hp _]].
  split; [exact Hv | exact Hp].
Defined.

(** X5.  Nobody cleans up after a transcription that fails at its start:
    when the video is there and the extraction has succeeded, and then the
    model cannot be created, or the WAV file that the transcoder left is
    missing or is rejected, [run_processing] reports an error, and the files
    are exactly those that the transcoder left, the audio file it extracted
    among them. *)
Theorem processing_failure_leaves_wav (env : Env) (video_path save_dir : string)
    (w : World) :
  let job := {| video := video_path; model := default_model;
                confidence := 0.6%float; video_dir := save_dir;
                srt_path := None |} in
  let left := snd (ffmpeg_run env (extract_command job) (files w)) in
  let wav := PosixPath.join save_dir
               (PyStr.drop_last4 (PosixPath.basename video_path) +:+ ".wav") in
  is_Some (files w !! video_path) ->
  fst (ffmpeg_run env (extract_command job) (files w)) = false ->
  vosk_open env "models/vosk-model-fr-0.22" = None
  \/ left !! wav = None
  \/ (exists content, left !! wav = Some content /\ wave_frames env content = None) ->
  exists msg,
    run_processing env video_path save_dir w =
      (Returns (error msg),
       {| files := left;
          invoked := invoked w ++ [Ffmpeg (extract_command job);
                                   VoskModel "models/vosk-model-fr-0.22"] |}).
Proof.
  intros job left wav [v Hv] Hok Hcause.
  rewrite run_processing_cases. fold job. rewrite Hv, Hok. fold left.
  set (w1 := {| files := left;
                invoked := invoked w ++ [Ffmpeg (extract_command job)] |}).
  assert (Hend : forall e,
            retrieve_text env job w1 =
              (Raises e,
               {| files := files w1;
                  invoked := invoked w1 ++ [VoskModel ("models/" +:+ model job)] |}) ->
            exists msg,
              match retrieve_text env job w1 with
              | (Returns p, w2) => (Returns (finished p), w2)
              | (Raises e, w2) => (Returns (error (str_exn e)), w2)
              end =
              (Returns (error msg),
               {| files := left;
                  invoked := invoked w ++ [Ffmpeg (extract_command job);
                                           VoskModel "models/vosk-model-fr-0.22"] |})).
  { intros e He. rewrite He. exists (str_exn e). cbn [files invoked w1].
    rewrite <- List.app_assoc. reflexivity. }
  destruct (vosk_open env "models/vosk-model-fr-0.22") as [rec|] eqn:Hrec.
  - destruct Hcause as [Hnone|[Hwav|[content [Hwav Hframes]]]].
    + discriminate Hnone.
    + eapply Hend. apply (retrieve_text_without_wav env job w1 rec Hrec Hwav).
    + eapply Hend.
      apply (retrieve_text_rejected_wav env job w1 rec content Hrec Hwav Hframes).
  - eapply Hend. apply (retrieve_text_without_model env job w1 Hrec).
Qed.

Lemma processing_failure_leaves_wav_witness :
  exists msg,
    run_processing env_without_model "/v/talk.mp4" "/out"
      (Scripted.world [("/v/talk.mp4", "video")])
    = (Returns (error msg),
       {| files := <["/out/talk.wav" := "media"]>
                     (files (Scripted.world [("/v/talk.mp4", "video")]));
          invoked :=
            [Ffmpeg (extract_command
                       {| video := "/v/talk.mp4"; model := default_model;
                          confidence := 0.6%float; video_dir := "/out";
                          srt_path := None |});
             VoskModel "models/vosk-model-fr-0.22"] |}).
Proof.
  exact (processing_failure_leaves_wav env_without_model "/v/talk.mp4" "/out"
           (Scripted.world [("/v/talk.mp4", "video")])
           (ex_intro _ "video" eq_refl) eq_refl (or_introl eq_refl)).
Defined.

(** ** The burn stage *)

Lemma start_burning_eq (env : Env) (self : PreviewWindow) (edited_srt : string)
    (w : World) :
  start_burning env self edited_srt w =
    match run_burning env self (output_path_of self)
            {| files := <[pw_srt_path self
                          := locale_encode env (argos_translate env edited_srt)]>
                          (files w);
               invoked := invoked w ++ [ArgosTranslate edited_srt] |} with
    | (Returns (burn_finished o e), w2) => on_burn_finished self o e w2
    | (Raises e, w2) => (Raises e, w2)
    end.
Proof.
  unfold start_burning, translate, log, write_text, ret, encode, bind.
  cbn [files invoked].
  destruct (run_burning env self _ _) as [[[o e]|e] w2]; reflexivity.
Qed.

(** X6.  Once the background burn has been started, however it ends (the
    burn done, the transcoder failed, the video missing), it gives a signal,
    and when the handler of that signal is over there is no file at the
    subtitle path.  The handler lets out one exception only,
    [FileNotFoundError] for the subtitle path itself, when the file was
    already gone. *)
Theorem burn_report_leaves_no_srt (env : Env) (self : PreviewWindow)
    (output_path : string) (w : World) :
  exists o e w1,
    run_burning env self output_path w = (Returns (burn_finished o e), w1)
    /\ files (snd (on_burn_finished self o e w1)) !! pw_srt_path self = None
    /\ ((exists box, fst (on_burn_finished self o e w1) = Returns box)
        \/ (files w1 !! pw_srt_path self = None
            /\ fst (on_burn_finished self o e w1) =
                 Raises (FileNotFoundError 2 "No such file or directory"
                           (pw_srt_path self)))).
Proof.
  destruct (run_burning_signal env self output_path w) as [o [e [w1 Hrun]]].
  exists o, e, w1. split; [exact Hrun|].
  unfold on_burn_finished, bind, os_remove, ret.
  destruct (files w1 !! pw_srt_path self) as [c|] eqn:Hsrt; cbn [fst snd files].
  - split; [apply lookup_delete_eq | eauto].
  - split; [exact Hsrt | right; split; reflexivity].
Qed.

(** X7.  The burn stage in its order, when all goes well: the whole edited
    text goes to the translator in one call, its translation is written at
    the subtitle path before the transcoder is started, the transcoder then
    runs once with the burn command, and when it succeeds and has left the
    subtitle file in place, the user is told the output path and the files
    are those that the transcoder left less the subtitle file (and less the
    two paths that [_cleanup] looks at below the output path). *)
Theorem burn_stage_in_order (env : Env) (self : PreviewWindow)
    (edited_srt c : string) (w : World) :
  let job := {| video := pw_video_path self; model := default_model;
                confidence := 0.6%float; video_dir := output_path_of self;
                srt_path := Some (pw_srt_path self) |} in
  let translated := locale_encode env (argos_translate env edited_srt) in
  let before := <[pw_srt_path self := translated]> (files w) in
  let after := snd (ffmpeg_run env (burn_command job) before) in
  let below_srt := PosixPath.join (output_path_of self) (base_name job +:+ ".srt") in
  let below_wav := PosixPath.join (output_path_of self) (base_name job +:+ ".wav") in
  is_Some (files w !! pw_video_path self) ->
  fst (ffmpeg_run env (burn_command job) before) = false ->
  after !! pw_srt_path self = Some c ->
  pw_srt_path self <> below_srt ->
  pw_srt_path self <> below_wav ->
  start_burning env self edited_srt w =
    (Returns (information ("Subtitled video saved to: " +:+ output_path_of self)),
     {| files := delete (pw_srt_path self) (delete below_wav (delete below_srt after));
        invoked := invoked w ++ [ArgosTranslate edited_srt;
                                 Ffmpeg (burn_command job)] |}).
Proof.
  intros job translated before after below_srt below_wav Hvideo Hok Hsrt Hne1 Hne2.
  rewrite start_burning_eq. fold translated before.
  unfold run_burning, try_except, bind. rewrite init_outcome. cbn [files].
  assert (Hv : is_Some (before !! pw_video_path self)).
  { unfold before. rewrite lookup_insert. case_decide; eauto. }
  destruct Hv as [v Hv]. rewrite Hv. fold job.
  rewrite burn_subtitles_done by exact Hok. cbn [files invoked ret].
  fold after below_srt below_wav.
  unfold on_burn_finished, bind, os_remove, ret. cbn [files invoked truthy str_path].
  rewrite lookup_delete_ne by (intros Heq; apply Hne2; now symmetry).
  rewrite lookup_delete_ne by (intros Heq; apply Hne1; now symmetry).
  rewrite Hsrt, <- List.app_assoc. reflexivity.
Qed.

Lemma burn_stage_in_order_witness :
  fst (start_burning (Scripted.env Scripted.transcoder_ok [])
         {| pw_video_path := "/v/talk.mp4"; pw_srt_path := "/out/talk.srt";
            pw_save_dir := "/out" |}
         "1"
         (Scripted.world [("/v/talk.mp4", "video"); ("/out/talk.srt", "1")]))
  = Returns (information "Subtitled video saved to: /out/talk_subtitled.mp4").
Proof.
  assert (H := burn_stage_in_order (Scripted.env Scripted.transcoder_ok [])
              {| pw_video_path := "/v/talk.mp4"; pw_srt_path := "/out/talk.srt";
                 pw_save_dir := "/out" |}
              "1" "1"
              (Scripted.world [("/v/talk.mp4", "video"); ("/out/talk.srt", "1")])
              (ex_intro _ "video" eq_refl) eq_refl eq_refl
              ltac:(intros Heq; discriminate Heq)
              ltac:(intros Heq; discriminate Heq)).
  rewrite H. reflexivity.
Defined.

(** ** The output path *)

Section Paths.

Import PyStr PosixPath.

Lemma lacks_cons (c x : ascii) (s : string) :
  lacks c (String x s) = negb (Ascii.eqb x c) && lacks c s.
Proof. reflexivity. Qed.

Lemma basename_from_lacks_slash (p acc : string) :
  lacks "/" acc = true -> lacks "/" (basename_from p acc) = true.
Proof.
  revert acc. induction p as [|c p IH]; intros acc Hacc; simpl; [exact Hacc|].
  destruct (is_slash c) eqn:Hc; apply IH; [reflexivity|].
  rewrite lacks_app, Hacc, lacks_cons. unfold is_slash in Hc. now rewrite Hc.
Qed.

(** A base name holds no slash. *)
Lemma basename_lacks_slash (p : string) : lacks "/" (basename p) = true.
Proof. now apply basename_from_lacks_slash. Qed.

Lemma basename_from_plain (f acc : string) :
  lacks "/" f = true -> basename_from f acc = acc +:+ f.
Proof.
  revert acc. induction f as [|c f IH]; intros acc Hf; simpl.
  - now rewrite append_empty_r.
  - rewrite lacks_cons in Hf. apply andb_prop in Hf as [Hc Hf].
    apply negb_true_iff in Hc. unfold is_slash. rewrite Hc, (IH _ Hf).
    now rewrite append_assoc.
Qed.

Lemma basename_from_after_slash (a f acc : string) :
  basename_from (a +:+ String "/" f) acc = basename_from f "".
Proof.
  revert acc. induction a as [|c a IH]; intros acc.
  - reflexivity.
  - rewrite append_cons. simpl. destruct (is_slash c); apply IH.
Qed.

Lemma ends_with_slash_split (a : string) :
  ends_with_slash a = true -> exists a', a = a' +:+ "/".
Proof.
  induction a as [|c a IH]; [discriminate|].
  destruct a as [|c' a].
  - simpl. unfold is_slash. intros H. apply Ascii.eqb_eq in H as ->. now exists "".
  - intros H. destruct (IH H) as [a' Ha']. exists (String c a').
    now rewrite append_cons, <- Ha'.
Qed.

(** The base name of a path joined from a directory and a name without
    slash is that name. *)
Lemma basename_join (d f : string) :
  lacks "/" f = true -> basename (join d f) = f.
Proof.
  intros Hf. unfold basename.
  assert (Hplain : basename_from f "" = f)
    by now rewrite basename_from_plain.
  assert (Hcut : forall a, basename_from (a +:+ "/" +:+ f) "" = f).
  { intros a. change ("/" +:+ f) with (String "/" f).
    now rewrite basename_from_after_slash. }
  unfold join. destruct f as [|c f].
  - destruct (String.length d =? 0)%nat eqn:Hd; cbn [orb].
    + destruct d; [reflexivity | discriminate].
    + destruct (ends_with_slash d) eqn:He.
      * destruct (ends_with_slash_split d He) as [a' ->].
        apply (basename_from_after_slash a' "" "").
      * apply (basename_from_after_slash d "" "").
  - rewrite lacks_cons in Hf. apply andb_prop in Hf as [Hc _].
    apply negb_true_iff in Hc. unfold is_slash at 1. rewrite Hc.
    destruct (String.length d =? 0)%nat eqn:Hd; cbn [orb].
    + destruct d; [exact Hplain | discriminate].
    + destruct (ends_with_slash d) eqn:He.
      * destruct (ends_with_slash_split d He) as [a' ->].
        rewrite append_assoc. apply Hcut.
      * apply Hcut.
Qed.

Lemma take_drop (n : nat) (s : string) : take n s +:+ drop n s = s.
Proof.
  revert s. induction n as [|n IH]; intros [|c s]; simpl; try reflexivity.
  rewrite append_cons. now rewrite IH.
Qed.

Lemma lacks_take (c : ascii) (n : nat) (s : string) :
  lacks c s = true -> lacks c (take n s) = true.
Proof.
  revert s. induction n as [|n IH]; intros [|x s] H; try reflexivity.
  cbn [take]. rewrite lacks_cons in *.
  apply andb_prop in H as [Hx Hs]. now rewrite Hx, IH.
Qed.

Lemma lacks_drop (c : ascii) (n : nat) (s : string) :
  lacks c s = true -> lacks c (drop n s) = true.
Proof.
  revert s. induction n as [|n IH]; intros [|x s] H; try exact H.
  cbn [drop]. rewrite lacks_cons in H.
  apply andb_prop in H as [Hx Hs]. now apply IH.
Qed.

(** Stem and suffix make up the name. *)
Lemma stem_suffix (p : string) : stem p +:+ suffix p = name p.
Proof.
  unfold stem, suffix. destruct (rfind_dot (name p) 0) as [i|].
  - destruct (_ && _); [apply take_drop | apply append_empty_r].
  - apply append_empty_r.
Qed.

Lemma stem_lacks_slash (p : string) : lacks "/" (stem p) = true.
Proof.
  unfold stem. pose proof (basename_lacks_slash p) as H. fold (name p) in H.
  destruct (rfind_dot (name p) 0) as [i|]; [|exact H].
  destruct (_ && _); [now apply lacks_take | exact H].
Qed.

Lemma suffix_lacks_slash (p : string) : lacks "/" (suffix p) = true.
Proof.
  unfold suffix. pose proof (basename_lacks_slash p) as H. fold (name p) in H.
  destruct (rfind_dot (name p) 0) as [i|]; [|reflexivity].
  destruct (_ && _); [now apply lacks_drop | reflexivity].
Qed.

End Paths.

(** X8.  The output path that the burn stage computes is never the path of
    the video: its base name is the video's stem, then [_subtitled], then
    the video's suffix, ten characters more than the video's own base name.
    The transcoder, which overwrites its output, is thus never told to
    write over its input. *)
Theorem output_is_not_the_video (self : PreviewWindow) :
  let job := {| video := pw_video_path self; model := default_model;
                confidence := 0.6%float; video_dir := output_path_of self;
                srt_path := Some (pw_srt_path self) |} in
  PosixPath.basename (output_path_of self) =
    PosixPath.stem (pw_video_path self) +:+ "_subtitled" +:+
    PosixPath.suffix (pw_video_path self)
  /\ PosixPath.stem (pw_video_path self) +:+ PosixPath.suffix (pw_video_path self)
     = PosixPath.basename (pw_video_path self)
  /\ String.length (PosixPath.basename (output_path_of self)) =
       (String.length (PosixPath.basename (pw_video_path self)) + 10)%nat
  /\ String.eqb (output_path_of self) (pw_video_path self) = false
  /\ String.eqb (ff_output (burn_command job)) (ff_input (burn_command job)) = false.
Proof.
  intros job.
  assert (Hbase : PosixPath.basename (output_path_of self) =
                  PosixPath.stem (pw_video_path self) +:+ "_subtitled" +:+
                  PosixPath.suffix (pw_video_path self)).
  { unfold output_path_of, PosixPath.div. apply basename_join.
    rewrite !lacks_app, stem_lacks_slash, suffix_lacks_slash. reflexivity. }
  assert (Hname := stem_suffix (pw_video_path self)).
  unfold PosixPath.name in Hname.
  assert (Hlen : String.length (PosixPath.basename (output_path_of self)) =
                 (String.length (PosixPath.basename (pw_video_path self)) + 10)%nat).
  { rewrite Hbase, <- Hname, !length_append. cbn [String.length]. lia. }
  assert (Hne : String.eqb (output_path_of self) (pw_video_path self) = false).
  { apply String.eqb_neq. intros Heq. rewrite Heq in Hlen. lia. }
  repeat split; assumption.
Qed.

(** ** The timestamp at the end of a minute *)

Section Minute.

Import PyStr.
Local Open Scope Q_scope.

Lemma round_half_even_le (x : Q) (b : Z) :
  x < inject_Z b -> (PyFloat.round_half_even x <= b)%Z.
Proof.
  intros Hx. unfold PyFloat.round_half_even.
  assert (Hf : (Qfloor x < b)%Z)
    by (rewrite Zlt_Qlt; pose proof (Qfloor_le x); lra).
  destruct (Qcompare _ _); [destruct (Z.even _)| |]; lia.
Qed.

(** Rounding gives [b] for everything from [b - 1/2] up to [b], when
    [b - 1] is odd. *)
Lemma round_half_even_up (x : Q) (b : Z) :
  Z.even (b - 1) = false ->
  inject_Z b - (1 # 2) <= x -> x < inject_Z b ->
  PyFloat.round_half_even x = b.
Proof.
  intros Hodd Hlo Hhi. unfold PyFloat.round_half_even.
  assert (Hinj : inject_Z (b - 1) == inject_Z b - 1).
  { unfold Z.sub. rewrite inject_Z_plus, inject_Z_opp. reflexivity. }
  assert (Hf : Qfloor x = (b - 1)%Z) by (apply Qfloor_unique; lra).
  rewrite Hf, Hodd.
  destruct (Qcompare _ _) eqn:Hc; try lia.
  apply Qlt_alt in Hc. lra.
Qed.

Lemma format_06_3f_wide (x : Q) :
  let n := PyFloat.round_half_even (x * 1000) in
  (0 <= n < 100000)%Z ->
  PyFloat.format_06_3f x = two_digits (n / 1000) +:+ "." +:+ three_digits (n mod 1000).
Proof.
  intros n Hn. unfold PyFloat.format_06_3f. fold n.
  assert (Hs : (0 <= n / 1000 < 100)%Z)
    by (split; [apply Z.div_pos; lia | apply Z.div_lt_upper_bound; lia]).
  assert (Hm : (0 <= n mod 1000 < 1000)%Z) by (apply Z.mod_pos_bound; lia).
  rewrite (zero_pad_three_digits _ Hm).
  change 6%nat with (2 + 4)%nat.
  rewrite (zero_pad_app 2 4) by reflexivity.
  fold (format_02d (n / 1000)). now rewrite (format_02d_two_digits _ Hs).
Qed.

Lemma format_timestamp_exact_shape (q : Q) :
  let hours := Qfloor (q / 3600) in
  let minutes := Qfloor (PyFloat.qmod q 3600 / 60) in
  let millis := PyFloat.round_half_even (PyFloat.qmod q 60 * 1000) in
  0 <= q ->
  format_timestamp_exact q =
    format_02d hours +:+ ":" +:+ two_digits minutes +:+ ":" +:+
    two_digits (millis / 1000) +:+ "," +:+ three_digits (millis mod 1000)
  /\ (0 <= millis <= 60000)%Z.
Proof.
  intros hours minutes millis Hq.
  destruct (qmod_bounds q 3600 ltac:(lra)) as [Hr0 Hr1].
  destruct (qmod_bounds q 60 ltac:(lra)) as [Hs0 Hs1].
  assert (Hm : (0 <= minutes < 60)%Z).
  { apply Qfloor_range.
    - apply Qle_shift_div_l; lra.
    - apply Qlt_shift_div_r; [lra|]. change (inject_Z 60) with 60. lra. }
  assert (Hn : (0 <= millis <= 60000)%Z).
  { split.
    - apply round_half_even_nonneg. apply Qmult_le_0_compat; lra.
    - apply round_half_even_le. change (inject_Z 60000) with 60000. lra. }
  split; [|exact Hn].
  unfold format_timestamp_exact. fold hours minutes.
  rewrite (format_06_3f_wide (PyFloat.qmod q 60)) by (fold millis; lia).
  fold millis.
  rewrite (format_02d_two_digits minutes) by lia.
  assert (Hs : (0 <= millis / 1000 < 100)%Z)
    by (split; [apply Z.div_pos; lia | apply Z.div_lt_upper_bound; lia]).
  assert (Hf : (0 <= millis mod 1000 < 1000)%Z) by (apply Z.mod_pos_bound; lia).
  rewrite !replace_app.
  rewrite (replace_digits _ _ (format_02d hours))
    by (reflexivity || apply zero_pad_digits, str_int_digits).
  rewrite (replace_digits _ _ (two_digits minutes))
    by (reflexivity || apply two_digits_digits; lia).
  rewrite (replace_digits _ _ (two_digits (millis / 1000)))
    by (reflexivity || now apply two_digits_digits).
  rewrite (replace_digits _ _ (three_digits (millis mod 1000)))
    by (reflexivity || now apply three_digits_digits).
  reflexivity.
Qed.

End Minute.

(** X9.  For every float [seconds] of value [q] with [0 <= q < 2^53] the
    formatter returns the hours on at least two digits followed by
    [:MM:SS,mmm], ten characters, and no point is left in it.  The rounded
    number of milliseconds can reach a full minute: the seconds field
    reads [60], with [000] after the comma and the minutes not carried,
    exactly when the seconds within the minute are 59.9995 or more. *)
Theorem format_timestamp_minute_edge (seconds : float) (q : Q) :
  let hours := Qfloor (q / 3600) in
  let minutes := Qfloor (PyFloat.qmod q 3600 / 60) in
  let millis := PyFloat.round_half_even (PyFloat.qmod q 60 * 1000) in
  PyFloat.exact_value seconds = Some q ->
  (0 <= q)%Q ->
  (q < inject_Z (2 ^ 53))%Q ->
  exists text,
    _format_timestamp seconds = Some text
    /\ text = PyStr.format_02d hours +:+ ":" +:+ PyStr.two_digits minutes +:+ ":" +:+
              PyStr.two_digits (millis / 1000) +:+ "," +:+
              PyStr.three_digits (millis mod 1000)
    /\ String.length text = (String.length (PyStr.format_02d hours) + 10)%nat
    /\ 0 <= millis <= 60000
    /\ ((119999 # 2 <= PyFloat.qmod q 60 * 1000)%Q <-> millis = 60000)
    /\ (millis = 60000 ->
        text = PyStr.format_02d hours +:+ ":" +:+ PyStr.two_digits minutes +:+
               ":60,000").
Proof.
  intros hours minutes millis Hval Hlo Hhi.
  destruct (format_timestamp_exact_shape q Hlo) as [Htext Hn].
  fold hours minutes millis in Htext, Hn.
  eexists. split.
  { unfold _format_timestamp.
    rewrite Hval, (in_exact_range_true q Hlo Hhi). reflexivity. }
  split; [exact Htext|]. split.
  { rewrite Htext, !length_append. reflexivity. }
  split; [exact Hn|]. split.
  - split.
    + intros Hge. apply round_half_even_up; [reflexivity| |].
      * change (inject_Z 60000) with 60000%Q. lra.
      * destruct (qmod_bounds q 60 ltac:(lra)) as [_ Hs1].
        change (inject_Z 60000) with 60000%Q. lra.
    + intros H60. fold millis in H60.
      destruct (round_half_even_near (PyFloat.qmod q 60 * 1000)) as [Hnear _].
      fold millis in Hnear. rewrite H60 in Hnear.
      change (inject_Z 60000) with 60000%Q in Hnear. lra.
  - intros H60. rewrite Htext, H60. reflexivity.
Qed.

Lemma format_timestamp_minute_edge_witness :
  exists text,
    _format_timestamp 59.9996%float = Some text
    /\ String.length text = 12%nat.
Proof.
  destruct (format_timestamp_minute_edge 59.9996%float
              (8444193006324338 # 140737488355328) eq_refl
              ltac:(unfold Qle; cbn; lia) eq_refl)
    as [text [Hrun [_ [Hlen _]]]].
  exists text. split; [exact Hrun|]. rewrite Hlen. vm_compute. reflexivity.
Defined.

(** ** The loop and its chunks *)

Lemma chunks_cons (n : nat) (f : frame) (wf' : list frame) :
  chunks (S n) (f :: wf') =
    firstn (S n) (f :: wf') :: chunks (S n) (skipn (S n) (f :: wf')).
Proof. simp chunks. reflexivity. Qed.

(** The loop is its body run on the chunks of the stream in turn. *)
Lemma transcribe_as_feed (env : Env) (c : float) (n : nat) (wf : list frame) :
  forall st : loop_state env, transcribe env c n wf st = feed c (chunks n wf) st.
Proof.
  remember (length wf) as m eqn:Hm. revert wf Hm.
  induction m as [m IH] using lt_wf_ind. intros wf Hm st.
  destruct n as [|n]; [now simp transcribe chunks|].
  destruct wf as [|f wf']; [now simp transcribe chunks|].
  rewrite transcribe_cons, chunks_cons. cbn [feed].
  destruct (on_chunk c (firstn (S n) (f :: wf')) st) as [st'|e]; [|reflexivity].
  apply (IH (length (skipn (S n) (f :: wf')))); [|reflexivity].
  subst m. rewrite length_skipn. cbn [length]. lia.
Qed.



Lemma on_chunk_appends (env : Env) (c : float) (data : list frame)
    (st st' : loop_state env) :
  on_chunk c data st = Returns st' ->
  exists added,
    subtitles st' = subtitles st ++ added
    /\ subtitles_index st' = subtitles_index st + Z.of_nat (length added)
    /\ (length added <= 1)%nat.
Proof.
  unfold on_chunk.
  destruct (AcceptWaveform env (recognizer st) data) as [rec1 [|]].
  - destruct (Result env rec1) as [rec2 [[|w0 ws]|]]; cbn [on_result].
    + intros H. injection H as <-. exists []. cbn.
      rewrite app_nil_r, Z.add_0_r. auto.
    + destruct (_format_timestamp (start w0)) as [s|]; [|discriminate].
      destruct (_format_timestamp (end_ (List.last ws w0))) as [e|]; [|discriminate].
      intros H. injection H as <-. eexists [_]. cbn. auto.
    + intros H. injection H as <-. exists []. cbn.
      rewrite app_nil_r, Z.add_0_r. auto.
  - intros H. injection H as <-. exists []. cbn.
    rewrite app_nil_r, Z.add_0_r. auto.
Qed.

Lemma feed_appends (env : Env) (c : float) (cs : list (list frame)) :
  forall st st' : loop_state env,
    feed c cs st = Returns st' ->
    exists added,
      subtitles st' = subtitles st ++ added
      /\ subtitles_index st' = subtitles_index st + Z.of_nat (length added)
      /\ (length added <= length cs)%nat.
Proof.
  induction cs as [|data cs IH]; intros st st' H; cbn [feed] in H.
  - injection H as <-. exists []. cbn. rewrite app_nil_r, Z.add_0_r. auto.
  - destruct (on_chunk c data st) as [st1|e] eqn:Hc; [|discriminate].
    apply on_chunk_appends in Hc as [a1 [Hs1 [Hi1 Hl1]]].
    apply IH in H as [a2 [Hs2 [Hi2 Hl2]]].
    exists (a1 ++ a2). rewrite Hs2, Hs1, Hi2, Hi1, List.app_assoc, length_app.
    cbn [length]. split; [reflexivity|]. split; lia.
Qed.

(** X11.  From any state, a run of the loop that returns has only added
    cues at the end of those it started with, never touched one of them, has
    moved the index on by the number of cues added, and has added at most
    one cue for each chunk read. *)
Theorem transcribe_appends (env : Env) (c : float) (n : nat) (wf : list frame)
    (st st' : loop_state env) :
  transcribe env c n wf st = Returns st' ->
  exists added,
    subtitles st' = subtitles st ++ added
    /\ subtitles_index st' = subtitles_index st + Z.of_nat (length added)
    /\ (length added <= length (chunks n wf))%nat
    /\ (forall i s, subtitles st !! i = Some s -> subtitles st' !! i = Some s).
Proof.
  rewrite transcribe_as_feed. intros H.
  apply feed_appends in H as [added [Hs [Hi Hl]]].
  exists added. repeat split; try assumption.
  intros i s Hlook. rewrite Hs. now apply lookup_app_l_Some.
Qed.

Lemma transcribe_appends_witness :
  exists added,
    ["0" +:+ nl] ++ added =
      ["0" +:+ nl] ++
      ["7" +:+ nl +:+ "00:00:01,500 --> 00:00:01,750" +:+ nl +:+ "" +:+ nl]
    /\ (length added <= 2)%nat.
Proof.
  destruct (transcribe_appends
              (Scripted.env Scripted.transcoder_ok Scripted.one_group)
              0.6%float 2 (default [] (Scripted.frames_of "abcd"))
              {| recognizer := ((Scripted.one_group, None)
                                : rec_state (Scripted.env Scripted.transcoder_ok
                                               Scripted.one_group));
                 subtitles := ["0" +:+ nl]; subtitles_index := 7 |}
              {| recognizer := (([], None)
                                : rec_state (Scripted.env Scripted.transcoder_ok
                                               Scripted.one_group));
                 subtitles :=
                   ["0" +:+ nl;
                    "7" +:+ nl +:+ "00:00:01,500 --> 00:00:01,750" +:+ nl +:+ ""
                    +:+ nl];
                 subtitles_index := 8 |}
              eq_refl) as [added [Hs [_ [Hl _]]]].
  exists added. split; [symmetry; exact Hs | exact Hl].
Defined.

(** ** The translation package *)

Lemma find_first {A : Type} (f : A -> bool) (l : list A) (p : A) :
  List.find f l = Some p <->
  exists l1 l2,
    l = l1 ++ p :: l2 /\ f p = true /\ Forall (fun x => f x = false) l1.
Proof.
  induction l as [|x l IH]; cbn [List.find].
  - split; [discriminate|]. intros [[|? ?] [l2 [H _]]]; discriminate H.
  - destruct (f x) eqn:Hx.
    + split.
      * intros H. injection H as <-. exists [], l. auto.
      * intros [[|y l1] [l2 [Hl [Hp Hall]]]].
        -- cbn in Hl. now injection Hl as <- _.
        -- cbn in Hl. injection Hl as <- _.
           inversion Hall as [|? ? Hy _]. congruence.
    + rewrite IH. split.
      * intros [l1 [l2 [-> [Hp Hall]]]]. exists (x :: l1), l2. auto.
      * intros [[|y l1] [l2 [Hl [Hp Hall]]]].
        -- cbn in Hl. injection Hl as <- _. congruence.
        -- cbn in Hl. injection Hl as <- ->.
           inversion Hall. subst. eauto.
Qed.

Lemma find_none {A : Type} (f : A -> bool) (l : list A) :
  List.find f l = None <-> Forall (fun x => f x = false) l.
Proof.
  induction l as [|x l IH]; cbn [List.find].
  - split; [constructor | reflexivity].
  - destruct (f x) eqn:Hx.
    + split; [discriminate|]. intros H. inversion H. congruence.
    + rewrite IH. split; [now constructor | now inversion 1].
Qed.

(** X12.  [install_packages] installs the first package of the index, in
    the order of the index, that translates from [fr] to [en], whatever
    follows it; and it ends with [StopIteration], before any download,
    exactly when the index holds no such package, an empty index
    included. *)
Theorem install_first_fr_en (available_packages : list package) :
  (forall p,
      install_packages available_packages = Installed p <->
      exists before after,
        available_packages = before ++ p :: after
        /\ from_code p = "fr" /\ to_code p = "en"
        /\ Forall (fun x => from_code x <> "fr" \/ to_code x <> "en") before)
  /\ (install_packages available_packages = StopIteration <->
      Forall (fun x => from_code x <> "fr" \/ to_code x <> "en") available_packages)
  /\ install_packages [] = StopIteration.
Proof.
  assert (Hyes : forall x, fr_to_en x = true <-> from_code x = "fr" /\ to_code x = "en").
  { intros x. unfold fr_to_en. rewrite andb_true_iff, !String.eqb_eq. reflexivity. }
  assert (Hno : forall x, fr_to_en x = false <->
                          from_code x <> "fr" \/ to_code x <> "en").
  { intros x. unfold fr_to_en. rewrite andb_false_iff, !String.eqb_neq. reflexivity. }
  assert (Hall : forall l, Forall (fun x => fr_to_en x = false) l <->
                           Forall (fun x => from_code x <> "fr" \/ to_code x <> "en") l).
  { intros l. rewrite !List.Forall_forall. split; intros H x Hx; apply Hno, H, Hx. }
  split; [|split; [|reflexivity]].
  - intros p. unfold install_packages.
    destruct (List.find fr_to_en available_packages) as [q|] eqn:Hfind.
    + split.
      * intros H. injection H as ->. apply find_first in Hfind
          as [l1 [l2 [Hl [Hp Hb]]]].
        exists l1, l2. rewrite <- Hall. apply Hyes in Hp. tauto.
      * intros [l1 [l2 [Hl [Hf [Ht Hb]]]]].
        assert (Hp : List.find fr_to_en available_packages = Some p).
        { apply find_first. exists l1, l2. rewrite Hall, Hyes. tauto. }
        congruence.
    + split; [discriminate|].
      intros [l1 [l2 [Hl [Hf [Ht Hb]]]]].
      assert (Hp : List.find fr_to_en available_packages = Some p).
      { apply find_first. exists l1, l2. rewrite Hall, Hyes. tauto. }
      congruence.
  - unfold install_packages. rewrite <- Hall, <- find_none.
    destruct (List.find fr_to_en available_packages); split; congruence.
Qed.

(** ** Seeking *)

(** X13.  From a position within the media, seeking five seconds back or
    forth stays within the media: back stops at 0 and forth at the
    duration.  Away from the two ends each undoes the other. *)
Theorem seek_stays_in_media (current_position duration : Z) :
  0 <= current_position <= duration ->
  0 <= seek_backward current_position <= current_position
  /\ current_position <= seek_forward current_position duration <= duration
  /\ (current_position <= 5000 -> seek_backward current_position = 0)
  /\ (duration <= current_position + 5000 ->
      seek_forward current_position duration = duration)
  /\ (current_position + 5000 <= duration ->
      seek_backward (seek_forward current_position duration) = current_position)
  /\ (5000 <= current_position ->
      seek_forward (seek_backward current_position) duration = current_position).
Proof.
  intros H. unfold seek_backward, seek_forward. repeat split; intros; lia.
Qed.

Lemma seek_stays_in_media_witness :
  seek_backward 3000 = 0 /\ seek_forward 58000 60000 = 60000.
Proof.
  pose proof (seek_stays_in_media 3000 60000 ltac:(lia)) as [_ [_ [Hb _]]].
  pose proof (seek_stays_in_media 58000 60000 ltac:(lia)) as [_ [_ [_ [Hf _]]]].
  split; [apply Hb; lia | apply Hf; lia].
Defined.

(** ** What the user is told after the burn *)

Lemma str_exn_not_empty (e : exn) : truthy (Some (str_exn e)) = true.
Proof. destruct e; reflexivity. Qed.

Lemma run_burning_cases (env : Env) (self : PreviewWindow) (output_path : string)
    (w : World) :
  let job := {| video := pw_video_path self; model := default_model;
                confidence := 0.6%float; video_dir := output_path;
                srt_path := Some (pw_srt_path self) |} in
  run_burning env self output_path w =
    match files w !! pw_video_path self with
    | None =>
        (Returns (burn_finished None
                    (Some (str_exn (FileNotFoundError ENOENT strerror_ENOENT
                                      (pw_video_path self))))), w)
    | Some _ =>
        match burn_subtitles env job w with
        | (Returns _, w1) => (Returns (burn_finished (Some output_path) None), w1)
        | (Raises e, w1) => (Returns (burn_finished None (Some (str_exn e))), w1)
        end
    end.
Proof.
  intros job. unfold run_burning, try_except, bind. rewrite init_outcome.
  destruct (files w !! pw_video_path self); [|reflexivity]. fold job.
  destruct (burn_subtitles env job w) as [[[]|e] w1]; reflexivity.
Qed.

(** X14.  The message box at the end of the burn stage says what happened:
    it announces the output path only when the video was there and the
    transcoder did not fail, and in every other case it is the error box,
    with a message that is not empty. *)
Theorem burn_report_is_truthful (env : Env) (self : PreviewWindow)
    (edited_srt : string) (w w' : World) (box : message_box) :
  let job := {| video := pw_video_path self; model := default_model;
                confidence := 0.6%float; video_dir := output_path_of self;
                srt_path := Some (pw_srt_path self) |} in
  let before :=
    <[pw_srt_path self := locale_encode env (argos_translate env edited_srt)]>
      (files w) in
  start_burning env self edited_srt w = (Returns box, w') ->
  (box = information ("Subtitled video saved to: " +:+ output_path_of self)
   /\ is_Some (before !! pw_video_path self)
   /\ fst (ffmpeg_run env (burn_command job) before) = false)
  \/ (exists msg,
        box = critical msg /\ truthy (Some msg) = true
        /\ (before !! pw_video_path self = None
            \/ fst (ffmpeg_run env (burn_command job) before) = true)).
Proof.
  intros job before. rewrite start_burning_eq. fold before.
  rewrite run_burning_cases. cbn [files]. fold job.
  destruct (before !! pw_video_path self) as [v|] eqn:Hv.
  - destruct (fst (ffmpeg_run env (burn_command job) before)) eqn:Hrun.
    + rewrite burn_subtitles_failed by exact Hrun.
      unfold on_burn_finished, bind, ret.
      destruct (os_remove _ _) as [[[]|e] w2]; [|discriminate].
      intros H. injection H as <- _. right. eexists.
      split; [reflexivity|]. split; [reflexivity | now right].
    + rewrite burn_subtitles_done by exact Hrun.
      unfold on_burn_finished, bind, ret.
      destruct (os_remove _ _) as [[[]|e] w2]; [|discriminate].
      intros H. injection H as <- _. left. cbn [truthy str_path]. eauto.
  - unfold on_burn_finished, bind, ret.
    destruct (os_remove _ _) as [[[]|e] w2]; [|discriminate].
    intros H. injection H as <- _. right. eexists.
    split; [reflexivity|]. split; [reflexivity | now left].
Qed.

Lemma burn_report_is_truthful_witness :
  fst (Scripted.transcoder_ok
         (burn_command {| video := "/v/talk.mp4"; model := default_model;
                          confidence := 0.6%float;
                          video_dir := "/out/talk_subtitled.mp4";
                          srt_path := Some "/out/talk.srt" |})
         (<["/out/talk.srt" := "1"]>
            (files (Scripted.world [("/v/talk.mp4", "video")])))) = false.
Proof.
  destruct (burn_report_is_truthful (Scripted.env Scripted.transcoder_ok [])
              {| pw_video_path := "/v/talk.mp4"; pw_srt_path := "/out/talk.srt";
                 pw_save_dir := "/out" |}
              "1"
              (Scripted.world [("/v/talk.mp4", "video")])
              _ (information "Subtitled video saved to: /out/talk_subtitled.mp4")
              eq_refl) as [[_ [_ H]]|[msg [H _]]].
  - exact H.
  - discriminate H.
Defined.

(** ** Where the working files are *)

(** X15.  The two working files of a job are always directly inside its
    save directory, whatever the path of the video: their names hold no
    slash, each path is the directory, a slash unless the directory is empty
    or ends with one, and the name, and the base name of each path is that
    name. *)
Theorem working_files_in_save_dir (self : ProcessVideo) :
  let wav := PosixPath.join (video_dir self) (base_name self +:+ ".wav") in
  let srt := PosixPath.join (video_dir self) (base_name self +:+ ".srt") in
  PyStr.lacks "/" (base_name self) = true
  /\ PosixPath.basename wav = base_name self +:+ ".wav"
  /\ PosixPath.basename srt = base_name self +:+ ".srt"
  /\ (wav = video_dir self +:+ base_name self +:+ ".wav"
      \/ wav = video_dir self +:+ "/" +:+ base_name self +:+ ".wav")
  /\ (srt = video_dir self +:+ base_name self +:+ ".srt"
      \/ srt = video_dir self +:+ "/" +:+ base_name self +:+ ".srt")
  /\ ff_output (extract_command self) = wav.
Proof.
  intros wav srt.
  assert (Hbase : PyStr.lacks "/" (base_name self) = true).
  { unfold base_name, PyStr.drop_last4. apply lacks_take, basename_lacks_slash. }
  assert (Hname : forall ext, PyStr.lacks "/" ext = true ->
                              PyStr.lacks "/" (base_name self +:+ ext) = true).
  { intros ext Hext. now rewrite lacks_app, Hbase, Hext. }
  assert (Hjoin : forall f, PyStr.lacks "/" f = true ->
            PosixPath.join (video_dir self) f = video_dir self +:+ f
            \/ PosixPath.join (video_dir self) f = video_dir self +:+ "/" +:+ f).
  { intros f Hf. unfold PosixPath.join. destruct f as [|c f].
    - destruct (_ || _); [left; now rewrite append_empty_r | now right].
    - rewrite lacks_cons in Hf. apply andb_prop in Hf as [Hc _].
      apply negb_true_iff in Hc. unfold PosixPath.is_slash. rewrite Hc.
      destruct (_ || _); auto. }
  split; [exact Hbase|].
  split; [apply basename_join, Hname; reflexivity|].
  split; [apply basename_join, Hname; reflexivity|].
  split; [apply Hjoin, Hname; reflexivity|].
  split; [apply Hjoin, Hname; reflexivity | reflexivity].
Qed.

(** X16.  For a video whose base name ends with an extension of four
    characters other than [.wav] and [.srt], such as the [.mp4] that the
    file dialog offers, neither working file is the video itself: the
    extraction is not told to write over the video and the subtitles are
    not saved over it. *)
Theorem working_files_spare_the_video (self : ProcessVideo) (stem ext : string) :
  let wav := PosixPath.join (video_dir self) (base_name self +:+ ".wav") in
  let srt := PosixPath.join (video_dir self) (base_name self +:+ ".srt") in
  PosixPath.basename (video self) = stem +:+ ext ->
  String.length ext = 4%nat ->
  ext <> ".wav" ->
  ext <> ".srt" ->
  String.eqb wav (video self) = false
  /\ String.eqb srt (video self) = false
  /\ String.eqb (ff_output (extract_command self)) (ff_input (extract_command self))
     = false.
Proof.
  intros wav srt Hname Hlen Hwav Hsrt.
  assert (Hbase : base_name self = stem).
  { unfold base_name. rewrite Hname. now apply drop_last4_app. }
  assert (Hslash : PyStr.lacks "/" stem = true).
  { rewrite <- Hbase. unfold base_name, PyStr.drop_last4.
    apply lacks_take, basename_lacks_slash. }
  assert (Hdiff : forall e, PyStr.lacks "/" e = true -> ext <> e ->
            String.eqb (PosixPath.join (video_dir self) (base_name self +:+ e))
              (video self) = false).
  { intros e He Hne. apply String.eqb_neq. intros Heq.
    assert (Hb : PosixPath.basename
                   (PosixPath.join (video_dir self) (base_name self +:+ e))
                 = stem +:+ ext) by now rewrite Heq.
    rewrite basename_join in Hb by now rewrite lacks_app, Hbase, Hslash, He.
    rewrite Hbase in Hb. apply append_inj_l in Hb. congruence. }
  split; [apply Hdiff; [reflexivity | exact Hwav]|].
  split; [apply Hdiff; [reflexivity | exact Hsrt]|].
  apply Hdiff; [reflexivity | exact Hwav].
Qed.

Lemma working_files_spare_the_video_witness :
  String.eqb "/v/talk.wav" "/v/talk.mp4" = false
  /\ String.eqb "/v/talk.srt" "/v/talk.mp4" = false.
Proof.
  pose proof (working_files_spare_the_video
                {| video := "/v/talk.mp4"; model := default_model;
                   confidence := 0.6%float; video_dir := "/v"; srt_path := None |}
                "talk" ".mp4" eq_refl eq_refl
                ltac:(intros H; discriminate H) ltac:(intros H; discriminate H))
    as [Hw [Hs _]].
  split; [exact Hw | exact Hs].
Defined.
